(** * XML import pipeline: derivation, validation and commit gate

    A shallow embedding of [sparkclient.py], [db.py] and [main.py].

    Spark data frames are tables with named, positional columns whose cells
    may be null; the relational store (SQLite) and the snapshot directory
    (Parquet) are finite maps; [main] runs in a state-and-exception monad
    over a world made of these and of a log of the calls it has issued. *)

From Stdlib Require Import ZArith String Ascii List PrimFloat Uint63.
From stdpp Require Import gmap strings list fin_maps pretty.

Local Open Scope Z_scope.

(* A decimal literal denotes the closest binary64 number, as in Python. *)
Set Warnings "-inexact-float".

(** ** Cells and data frames *)

(** A cell of a Spark column.  The XML reader infers integral columns as
    [long] and everything textual (dates included) as text. *)
Inductive Value :=
| VNull
| VLong (z : Z)
| VStr (s : string).

Global Instance Value_eq_dec : EqDecision Value.
Proof. solve_decision. Defined.

Abbreviation Row := (list Value).

Record DataFrame := mkDataFrame {
  columns : list string;
  rows : list Row
}.

(** Positional access to a row; a short row reads as null. *)
Definition cell (i : nat) (r : Row) : Value := default VNull (r !! i).

(** ** Python and Spark string primitives *)

Module Str.

(** Python's [c[1:]]: everything after the first character, and the empty
    string stays empty. *)
Definition slice1 (c : string) : string :=
  match c with
  | EmptyString => EmptyString
  | String _ rest => rest
  end.

(** Spark's [contains] on strings ([UTF8String.contains]): some position
    of [s] starts a copy of [sub]; the empty [sub] is found anywhere. *)
Fixpoint contains (s sub : string) : bool :=
  String.prefix sub s ||
  match s with
  | EmptyString => false
  | String _ rest => contains rest sub
  end.

(** The claim's own notion: [sub] occurs in [s] as a contiguous block. *)
Definition is_substring (sub s : string) : Prop :=
  ∃ before after : string, s = before +:+ sub +:+ after.

Definition lower_ascii (a : ascii) : ascii :=
  let n := nat_of_ascii a in
  if ((65 <=? n) && (n <=? 90))%nat then ascii_of_nat (n + 32) else a.

Fixpoint lower (s : string) : string :=
  match s with
  | EmptyString => EmptyString
  | String a rest => String (lower_ascii a) (lower rest)
  end.

(** Spark resolves column names without regard to letter case
    ([spark.sql.caseSensitive] is off by default). *)
Definition same_name (a b : string) : bool :=
  String.eqb (lower a) (lower b).

End Str.

(** ** Column resolution *)

(** Positions of the columns answering to [name]. *)
Fixpoint positions (name : string) (cols : list string) (i : nat) : list nat :=
  match cols with
  | [] => []
  | c :: cols' =>
      (if Str.same_name c name then [i] else []) ++ positions name cols' (S i)
  end.

(** [f.col(name)]: exactly one column must answer; none or several is an
    analysis error. *)
Definition resolve (cols : list string) (name : string) : option nat :=
  match positions name cols 0 with
  | [i] => Some i
  | _ => None
  end.

(** ** SparkClient.parse_xml: the renaming step *)

(** [new_column_names = [c[1:] for c in df.columns]], then [toDF] with these
    names: the columns are renamed by position, the rows are kept. *)
Definition strip_prefix (df : DataFrame) : DataFrame :=
  {| columns := map Str.slice1 (columns df);
     rows := rows df |}.

(** ** PostsTags.__init__: the containment join *)

(** Implicit cast to text of an operand of [contains] / [concat]. *)
Definition as_string (v : Value) : option string :=
  match v with
  | VNull => None
  | VLong z => Some (pretty z)
  | VStr s => Some s
  end.

(** [f.concat(f.lit('<'), f.col('t.TagName'), f.lit('>'))]: null as soon as
    one operand is null. *)
Definition wrapped (tag_name : Value) : option string :=
  name ← as_string tag_name; Some ("<" +:+ name +:+ ">").

(** [f.col('p.Tags').contains(...)] under SQL's three-valued logic. *)
Definition join_condition (tags_cell tag_name : Value) : option bool :=
  s ← as_string tags_cell; w ← wrapped tag_name; Some (Str.contains s w).

Section Join.
(** Positions of [p.Id], [p.Tags], [t.Id] and [t.TagName]. *)
Variables (pId pTags tId tName : nat).

(** [.select(p.Id as PostId, t.Id as TagId, t.TagName)] *)
Definition select_row (p t : Row) : Row :=
  [cell pId p; cell tId t; cell tName t].

(** An inner join keeps the pairs whose condition is true (not false, not
    null). *)
Definition joined (p t : Row) : list Row :=
  match join_condition (cell pTags p) (cell tName t) with
  | Some true => [select_row p t]
  | _ => []
  end.

Definition join_rows (posts tags : list Row) : list Row :=
  flat_map (λ p, flat_map (joined p) tags) posts.
End Join.

(** The data frame built by [PostsTags.__init__]; [None] is Spark's
    [AnalysisException] for a column that cannot be resolved.  The order of
    the rows of a join is not fixed by Spark: nothing below depends on the
    order chosen here. *)
Definition PostsTags_df (posts_df tags_df : DataFrame) : option DataFrame :=
  pTags ← resolve (columns posts_df) "Tags";
  tName ← resolve (columns tags_df) "TagName";
  pId ← resolve (columns posts_df) "Id";
  tId ← resolve (columns tags_df) "Id";
  Some {| columns := ["PostId"; "TagId"; "TagName"];
          rows := join_rows pId pTags tId tName (rows posts_df) (rows tags_df) |}.

(** ** Declarative checks

    The [Check] objects that [sparkclient.py] builds with pydeequ's fluent
    interface, as data: one constructor per builder method the source
    calls, carrying the arguments the source passes. *)

Module deequ.

(** Python's [x >= y] on floats. *)
Definition ge_float (x y : float) : bool := PrimFloat.leb y x.

Inductive Constraint :=
| hasSize (assertion : Z → bool)
| isUnique (column : string)
| isComplete (column : string)
| isNonNegative (column : string)
| hasCompleteness (column : string) (assertion : float → bool) (hint : string)
| isContainedIn (column : string) (allowed_values : list string).

(** [Check(spark, level, description)] followed by the chained
    constraints, in the order of the chain. *)
Record Check := mkCheck {
  level : string;
  description : string;
  constraints : list Constraint
}.

(** A row of the data frame returned by [check_result_to_df]. *)
Record ReportRow := mkReportRow {
  check : string;
  check_level : string;
  check_status : string;
  constraint : string;
  constraint_status : string;
  constraint_message : option string
}.

(** *** The verification run *)

(** Modelled from the spec: [VerificationSuite(...).onData(df).addCheck(c).run()]
    and [VerificationResult.checkResultsAsDataFrame] belong to pydeequ and
    are not in the repository; from here to [report_frame] the definitions
    follow section 4.3 of the specification, constraint kind by
    constraint kind. *)
Definition column_values (df : DataFrame) (column : string) : option (list Value) :=
  i ← resolve (columns df) column; Some (map (cell i) (rows df)).

Definition non_null (vs : list Value) : list Value :=
  filter (λ v, v ≠ VNull) vs.

(** The row count, and the counts of a ratio, as floating-point numbers. *)
Definition float_of_nat (n : nat) : float :=
  PrimFloat.of_uint63 (Uint63.of_Z (Z.of_nat n)).

(** Fraction of non-null values over the total number of rows. *)
Definition completeness (vs : list Value) : float :=
  PrimFloat.div (float_of_nat (length (non_null vs))) (float_of_nat (length vs)).

Definition non_negative (v : Value) : bool :=
  match v with
  | VNull => true
  | VLong z => 0 <=? z
  | VStr _ => false
  end.

Definition contained_in (allowed_values : list string) (v : Value) : bool :=
  match as_string v with
  | None => true
  | Some s => bool_decide (s ∈ allowed_values)
  end.

(** Modelled from the spec: the evaluation of one constraint, which
    pydeequ performs.  Does the table meet the constraint?  A constraint
    on a column the table does not have is not met. *)
Definition holds (df : DataFrame) (c : Constraint) : bool :=
  match c with
  | hasSize assertion => assertion (Z.of_nat (length (rows df)))
  | isUnique column =>
      match column_values df column with
      | Some vs => bool_decide (NoDup (non_null vs))
      | None => false
      end
  | isComplete column =>
      match column_values df column with
      | Some vs => bool_decide (Forall (λ v, v ≠ VNull) vs)
      | None => false
      end
  | isNonNegative column =>
      match column_values df column with
      | Some vs => forallb non_negative vs
      | None => false
      end
  | hasCompleteness column assertion _ =>
      match column_values df column with
      | Some vs => assertion (completeness vs)
      | None => false
      end
  | isContainedIn column allowed_values =>
      match column_values df column with
      | Some vs => forallb (contained_in allowed_values) vs
      | None => false
      end
  end.

(** Which rule a report row is about. *)
Definition rule (c : Constraint) : string :=
  match c with
  | hasSize _ => "hasSize"
  | isUnique column => "isUnique(" +:+ column +:+ ")"
  | isComplete column => "isComplete(" +:+ column +:+ ")"
  | isNonNegative column => "isNonNegative(" +:+ column +:+ ")"
  | hasCompleteness column _ _ => "hasCompleteness(" +:+ column +:+ ")"
  | isContainedIn column _ => "isContainedIn(" +:+ column +:+ ")"
  end.

(** The diagnostic of a failed constraint: the message configured with
    it, when there is one. *)
Definition diagnostic (c : Constraint) : string :=
  match c with
  | hasCompleteness _ _ hint => hint
  | _ => "Value does not meet the constraint requirement!"
  end.

Definition status (ok : bool) : string :=
  if ok then "Success" else "Failure".

(** One report row for one constraint. *)
Definition evaluate (ck : Check) (overall : string) (df : DataFrame)
    (c : Constraint) : ReportRow :=
  {| check := description ck;
     check_level := level ck;
     check_status := overall;
     constraint := rule c;
     constraint_status := status (holds df c);
     constraint_message := if holds df c then None else Some (diagnostic c) |}.

(** Modelled from the spec: the verification run, which pydeequ
    performs.  The whole battery: every constraint of the check is
    evaluated, in order. *)
Definition run (ck : Check) (df : DataFrame) : list ReportRow :=
  let overall := if forallb (holds df) (constraints ck) then "Success" else level ck in
  map (evaluate ck overall df) (constraints ck).

(** [checks.toPandas()]: the report as a table of cells. *)
Definition report_frame (r : list ReportRow) : DataFrame :=
  {| columns := ["check"; "check_level"; "check_status"; "constraint";
                 "constraint_status"; "constraint_message"];
     rows := map (λ row, [VStr (check row); VStr (check_level row);
                          VStr (check_status row); VStr (constraint row);
                          VStr (constraint_status row);
                          from_option VStr VNull (constraint_message row)]) r |}.

End deequ.

(** ** The relational store (SQLite through [sqlite3] and pandas) *)

Inductive SqlType := INTEGER | TIMESTAMP | TEXT.

Inductive ColumnConstraint := PRIMARY_KEY | NOT_NULL | UNIQUE.

Global Instance ColumnConstraint_eq_dec : EqDecision ColumnConstraint.
Proof. solve_decision. Defined.

Record ColumnDef := Col {
  col_name : string;
  col_type : SqlType;
  col_constraints : list ColumnConstraint
}.

(** [FOREIGN KEY (fk_column) REFERENCES fk_table (fk_target)] *)
Record ForeignKey := References {
  fk_column : string;
  fk_table : string;
  fk_target : string
}.

Record TableDef := mkTableDef {
  table_name : string;
  table_columns : list ColumnDef;
  foreign_keys : list ForeignKey;
  unique_together : list (list string)
}.

(** The two statements [db.py] sends. *)
Inductive Statement :=
| DROP_TABLE_IF_EXISTS (name : string)
| CREATE_TABLE_IF_NOT_EXISTS (def : TableDef).

(** pandas' [if_exists] argument. *)
Inductive IfExists := if_exists_fail | if_exists_replace | if_exists_append.

(** A table of the store: the schema it was declared with ([None] when
    pandas created it from a frame) and the frames loaded into it, oldest
    first.  How SQLite lays the loaded rows out is outside this model. *)
Record SqlTable := mkSqlTable {
  declared : option TableDef;
  loaded : list DataFrame
}.

Definition exec_statement (s : Statement) (st : gmap string SqlTable) : gmap string SqlTable :=
  match s with
  | DROP_TABLE_IF_EXISTS name => delete name st
  | CREATE_TABLE_IF_NOT_EXISTS def =>
      match st !! table_name def with
      | Some _ => st
      | None => <[table_name def := {| declared := Some def; loaded := [] |}]> st
      end
  end.

(** The exceptions that reach [main]. *)
Inductive Exn :=
| SystemExit (arg : string)
| AnalysisException (what : string)
| XmlError (url : string)
| ValueError (what : string)
(** [sqlite3.DatabaseError], with its subclasses [IntegrityError] and
    [OperationalError] *)
| DatabaseError (what : string).

(** pandas' [DataFrame.to_sql] on the tables of one database: a missing
    table is created from the frame; an existing one makes the call fail,
    is dropped and created anew from the frame, or is offered the rows of
    the frame, according to [if_exists].

    A table that exists may refuse the rows: SQLite raises when a row
    breaks a NOT NULL, UNIQUE or PRIMARY KEY constraint of the table or
    when the frame has a column the table has not, and pandas then rolls
    the insertion back, so that the table keeps none of the rows.  Which
    frames a table refuses is SQLite's to say: [refuses t df] is its
    answer for the table [t] and the frame [df], [None] when it takes the
    rows and the text of the error when it does not. *)
Definition store_frame (refuses : SqlTable → DataFrame → option string)
    (df : DataFrame) (table : string) (if_exists : IfExists)
    (st : gmap string SqlTable) : Exn + gmap string SqlTable :=
  match st !! table, if_exists with
  | Some _, if_exists_fail => inl (ValueError "Table already exists.")
  | Some t, if_exists_append =>
      match refuses t df with
      | Some what => inl (DatabaseError what)
      | None =>
          inr (<[table := {| declared := declared t; loaded := loaded t ++ [df] |}]> st)
      end
  | _, _ =>
      inr (<[table := {| declared := None; loaded := [df] |}]> st)
  end.

(** ** The world, and computations over it *)

Inductive Event :=
| SparkSessionStarted (app_name : string)
| XmlRead (url root_tag row_tag mode : string)
| ParquetWritten (mode url : string)
| VerificationRun (description : string)
| SqlConnected (url : string)
| SqlLoaded (table : string) (if_exists : IfExists)
| SqlExecuted (s : Statement)
| SparkSessionStopped
| Printed (text : string).

Record World := mkWorld {
  (** what the XML reader yields, in FAILFAST mode, for each file it can
      read: the flattened table, before the renaming *)
  xml_files : gmap string DataFrame;
  (** the Parquet snapshots, by path *)
  snapshots : gmap string DataFrame;
  (** the SQLite database files, by path *)
  databases : gmap string (gmap string SqlTable);
  (** the calls issued so far, oldest first *)
  log : list Event
}.

Definition M (A : Type) : Type := World → (Exn + A) * World.

Global Instance M_ret : MRet M := λ A a w, (inr a, w).

Global Instance M_bind : MBind M := λ A B f m w,
  match m w with
  | (inl e, w') => (inl e, w')
  | (inr a, w') => f a w'
  end.

Definition raise {A : Type} (e : Exn) : M A := λ w, (inl e, w).

(** The three ways a world changes. *)
Definition log_event (e : Event) (w : World) : World :=
  {| xml_files := xml_files w; snapshots := snapshots w;
     databases := databases w; log := log w ++ [e] |}.

Definition with_snapshots (s : gmap string DataFrame) (w : World) : World :=
  {| xml_files := xml_files w; snapshots := s;
     databases := databases w; log := log w |}.

Definition with_databases (d : gmap string (gmap string SqlTable)) (w : World) : World :=
  {| xml_files := xml_files w; snapshots := snapshots w;
     databases := d; log := log w |}.

Definition emit (e : Event) : M unit := λ w, (inr tt, log_event e w).

Definition get_world : M World := λ w, (inr w, w).

Definition set_snapshots (s : gmap string DataFrame) : M unit := λ w,
  (inr tt, with_snapshots s w).

Definition set_databases (d : gmap string (gmap string SqlTable)) : M unit := λ w,
  (inr tt, with_databases d w).

(** [os.sep] *)
Definition os_sep : string := "/".

(** The directory of a path: what stands before its last separator;
    [None] for a bare file name, which names a file of the working
    directory. *)
Fixpoint dirname (url : string) : option string :=
  match url with
  | EmptyString => None
  | String c rest =>
      match dirname rest with
      | Some d => Some (String c d)
      | None => if Ascii.eqb c "/" then Some EmptyString else None
      end
  end.

(** The files of the world, by path. *)
Definition paths (w : World) : list string :=
  (map_to_list (xml_files w)).*1 ++ (map_to_list (snapshots w)).*1
  ++ (map_to_list (databases w)).*1.

(** The world knows its directories by the files in them: a directory
    exists when it is the root or a file of the world lies under it. *)
Definition directory_exists (d : string) (w : World) : bool :=
  bool_decide (d = EmptyString) || existsb (String.prefix (d +:+ os_sep)) (paths w).

(** [sys.exit(arg)] raises [SystemExit]. *)
Definition sys_exit {A : Type} (arg : string) : M A := raise (SystemExit arg).

(** [print] *)
Definition print (text : string) : M unit := emit (Printed text).



(** ** sparkclient.py *)

Module sparkclient.

Import deequ.

(** The fields of a [SparkClient] that are the program's own. *)
Record SparkClient := mkSparkClient {
  app_name : string;
  path : string
}.

(** An instance of [Posts], [Tags] or [PostsTags]: each holds the client
    and a data frame. *)
Record Dataset := mkDataset {
  sc : SparkClient;
  df : DataFrame
}.

(** [SparkClient.__init__] *)
Definition SparkClient_init (app_name path : string) : M SparkClient :=
  emit (SparkSessionStarted app_name);;
  mret {| app_name := app_name; path := path |}.

(** [SparkClient.stop] *)
Definition stop (self : SparkClient) : M unit :=
  emit SparkSessionStopped.

(** [SparkClient.parse_xml] *)
Definition parse_xml (self : SparkClient) (url root_tag row_tag : string)
    (mode : string) : M DataFrame :=
  emit (XmlRead url root_tag row_tag mode);;
  w ← get_world;
  match xml_files w !! url with
  | None => raise (XmlError url)
  | Some loaded =>
      (* Remove "_" prefix from columns *)
      mret (strip_prefix loaded)
  end.

(** [SparkClient.write_parquet]: mode [overwrite] replaces whatever the
    path held. *)
Definition write_parquet (self : SparkClient) (df : DataFrame) (name : string) : M unit :=
  let url := path self +:+ os_sep +:+ name +:+ ".parquet" in
  emit (ParquetWritten "overwrite" url);;
  w ← get_world;
  set_snapshots (<[url := df]> (snapshots w)).

(** *** Posts *)

Definition Posts_init (sc : SparkClient) (xml : string) : M Dataset :=
  df ← parse_xml sc (path sc +:+ os_sep +:+ xml) "posts" "row" "FAILFAST";
  mret {| sc := sc; df := df |}.

Definition Posts_Check : Check :=
  {| level := "Warning";
     description := "Posts Check";
     constraints :=
       [ hasSize (λ x, x >=? 20000);
         isUnique "Id";
         isComplete "Id";
         isNonNegative "Id";
         isNonNegative "AcceptedAnswerId";
         isNonNegative "AnswerCount";
         hasCompleteness "AnswerCount" (λ x, ge_float x 0.44) "It should be above 0.44!";
         isComplete "Body";
         isComplete "LastActivityDate";
         hasCompleteness "Title" (λ x, ge_float x 0.44) "It should be above 0.44!";
         isNonNegative "ParentId";
         hasCompleteness "ParentId" (λ x, ge_float x 0.45) "It should be above 0.45!";
         hasCompleteness "LastEditDate" (λ x, ge_float x 0.59) "It should be above 0.59!";
         hasCompleteness "LastEditorUserId" (λ x, ge_float x 0.58) "It should be above 0.58!";
         isContainedIn "PostTypeId" ["2"; "1"; "5"; "4"; "6"; "7"];
         isComplete "PostTypeId";
         isNonNegative "ViewCount";
         hasCompleteness "ViewCount" (λ x, ge_float x 0.44) "It should be above 0.44!";
         isComplete "Score";
         hasCompleteness "Tags" (λ x, ge_float x 0.44) "It should be above 0.44!";
         hasCompleteness "OwnerUserId" (λ x, ge_float x 0.98) "It should be above 0.98!";
         isComplete "CommentCount";
         isNonNegative "CommentCount";
         isNonNegative "FavoriteCount";
         isContainedIn "ContentLicense" ["CC BY-SA 4.0"; "CC BY-SA 3.0"];
         isComplete "ContentLicense" ] |}.

(** *** Tags *)

Definition Tags_init (sc : SparkClient) (xml : string) : M Dataset :=
  df ← parse_xml sc (path sc +:+ os_sep +:+ xml) "tags" "row" "FAILFAST";
  mret {| sc := sc; df := df |}.

Definition Tags_Check : Check :=
  {| level := "Warning";
     description := "Tags Check";
     constraints :=
       [ hasSize (λ x, x >=? 900);
         isComplete "Id";
         isNonNegative "Id";
         isUnique "Id";
         isNonNegative "ExcerptPostId";
         hasCompleteness "ExcerptPostId" (λ x, ge_float x 0.77) "It should be above 0.77!";
         isComplete "TagName";
         isUnique "TagName";
         isNonNegative "WikiPostId";
         hasCompleteness "WikiPostId" (λ x, ge_float x 0.77) "It should be above 0.77!";
         isComplete "Count";
         isNonNegative "Count" ] |}.

(** *** PostsTags *)

Definition PostsTags_init (sc : SparkClient) (posts_df tags_df : DataFrame) : M Dataset :=
  match PostsTags_df posts_df tags_df with
  | None => raise (AnalysisException "cannot resolve column")
  | Some df => mret {| sc := sc; df := df |}
  end.

Definition PostsTags_Check : Check :=
  {| level := "Warning";
     description := "Posts Tags Check";
     constraints :=
       [ hasSize (λ x, x >=? 30000);
         isComplete "PostId";
         isNonNegative "PostId";
         isComplete "TagName";
         isComplete "TagId";
         isNonNegative "TagId" ] |}.

Section Methods.
(** The verification run of pydeequ, with the conversion of its result
    to a table ([check_result_to_df]). *)
Variable verify : Check → DataFrame → list ReportRow.

Definition run_check (ck : Check) (self : Dataset) : M (list ReportRow) :=
  emit (VerificationRun (description ck));;
  mret (verify ck (df self)).

Definition Posts_check (self : Dataset) : M (list ReportRow) := run_check Posts_Check self.
Definition Tags_check (self : Dataset) : M (list ReportRow) := run_check Tags_Check self.
Definition PostsTags_check (self : Dataset) : M (list ReportRow) := run_check PostsTags_Check self.
End Methods.

Definition Posts_save (self : Dataset) : M unit := write_parquet (sc self) (df self) "posts".
Definition Tags_save (self : Dataset) : M unit := write_parquet (sc self) (df self) "tags".
Definition PostsTags_save (self : Dataset) : M unit := write_parquet (sc self) (df self) "posts_tags".

End sparkclient.

(** ** db.py *)

Module db.

(** A [Database]: the connection is designated by the file it is open on. *)
Record Database := mkDatabase {
  url : string
}.

Definition tables_of (url : string) (w : World) : gmap string SqlTable :=
  default ∅ (databases w !! url).

(** [sqlite3.connect] can open the file: it exists, or it can be created
    because its directory exists.  The path is taken to name a file, not
    a directory; access rights are outside this model. *)
Definition can_open (url : string) (w : World) : bool :=
  bool_decide (is_Some (databases w !! url)) ||
  match dirname url with
  | None => true
  | Some d => directory_exists d w
  end.

(** [Database.__init__]: [sqlite3.connect] opens the file, creating it
    when it is missing, and raises when it can do neither. *)
Definition Database_init (url : string) : M Database :=
  emit (SqlConnected url);;
  w ← get_world;
  if can_open url w then
    set_databases (<[url := tables_of url w]> (databases w));;
    mret {| url := url |}
  else
    raise (DatabaseError "unable to open database file").

(** [Database.to_sql]: pandas' [DataFrame.to_sql] on the connection,
    without the index.  The store's answer to an insertion is the
    parameter [refuses] of [store_frame]. *)
Definition to_sql (refuses : SqlTable → DataFrame → option string)
    (self : Database) (df : DataFrame) (table : string)
    (if_exists : IfExists) : M unit :=
  emit (SqlLoaded table if_exists);;
  w ← get_world;
  match store_frame refuses df table if_exists (tables_of (url self) w) with
  | inl e => raise e
  | inr st => set_databases (<[url self := st]> (databases w))
  end.

(** [Database.execute] *)
Definition execute (self : Database) (s : Statement) : M unit :=
  emit (SqlExecuted s);;
  w ← get_world;
  set_databases (<[url self := exec_statement s (tables_of (url self) w)]> (databases w)).

Definition posts_def : TableDef :=
  {| table_name := "posts";
     table_columns :=
       [ Col "Id" INTEGER [PRIMARY_KEY];
         Col "PostTypeId" INTEGER [NOT_NULL];
         Col "AcceptedAnswerId" INTEGER [];
         Col "CreationDate" TIMESTAMP [];
         Col "Score" INTEGER [NOT_NULL];
         Col "ViewCount" INTEGER [];
         Col "Body" TEXT [NOT_NULL];
         Col "OwnerUserId" INTEGER [];
         Col "LastEditorUserId" INTEGER [];
         Col "LastEditDate" TIMESTAMP [];
         Col "LastActivityDate" TIMESTAMP [NOT_NULL];
         Col "Title" TEXT [];
         Col "Tags" TEXT [];
         Col "AnswerCount" INTEGER [];
         Col "CommentCount" INTEGER [NOT_NULL];
         Col "FavoriteCount" INTEGER [];
         Col "ContentLicense" TEXT [NOT_NULL];
         Col "ParentId" INTEGER [];
         Col "ClosedDate" TIMESTAMP [];
         Col "CommunityOwnedDate" TIMESTAMP [];
         Col "LastEditorDisplayName" TEXT [];
         Col "OwnerDisplayName" TEXT [] ];
     foreign_keys :=
       [ References "AcceptedAnswerId" "posts" "Id";
         References "ParentId" "posts" "Id" ];
     unique_together := [] |}.

Definition tags_def : TableDef :=
  {| table_name := "tags";
     table_columns :=
       [ Col "Id" INTEGER [PRIMARY_KEY];
         Col "TagName" TEXT [UNIQUE; NOT_NULL];
         Col "Count" INTEGER [NOT_NULL];
         Col "ExcerptPostId" INTEGER [];
         Col "WikiPostId" INTEGER [] ];
     foreign_keys :=
       [ References "ExcerptPostId" "posts" "Id";
         References "WikiPostId" "posts" "Id" ];
     unique_together := [] |}.

Definition posts_tags_def : TableDef :=
  {| table_name := "posts_tags";
     table_columns :=
       [ Col "PostId" INTEGER [NOT_NULL];
         Col "TagId" INTEGER [NOT_NULL];
         Col "TagName" TEXT [NOT_NULL] ];
     foreign_keys :=
       [ References "PostId" "posts" "Id";
         References "TagId" "tags" "Id" ];
     unique_together := [["PostId"; "TagId"]] |}.

(** [Posts.create] *)
Definition Posts_create (db : Database) : M unit :=
  execute db (DROP_TABLE_IF_EXISTS "posts");;
  execute db (CREATE_TABLE_IF_NOT_EXISTS posts_def).

(** [Tags.create] *)
Definition Tags_create (db : Database) : M unit :=
  execute db (DROP_TABLE_IF_EXISTS "tags");;
  execute db (CREATE_TABLE_IF_NOT_EXISTS tags_def).

(** [PostsTags.create] *)
Definition PostsTags_create (db : Database) : M unit :=
  execute db (DROP_TABLE_IF_EXISTS "posts_tags");;
  execute db (CREATE_TABLE_IF_NOT_EXISTS posts_tags_def).

End db.

(** ** main.py *)

Section Main.
Import deequ.

Variable verify : Check → DataFrame → list ReportRow.
(** SQLite's answer to the insertion of a frame into a table that exists
    (see [store_frame]). *)
Variable refuses : SqlTable → DataFrame → option string.

Definition exit_message : string :=
  "Data validation check has failed! See check_results table for more details.".

Definition main (path : string) : M unit :=
  (* Initialise Spark Session *)
  sc ← sparkclient.SparkClient_init "XML_Import" path;
  (* Load XML into Spark Dataframe *)
  posts ← sparkclient.Posts_init sc "Posts.xml";
  tags ← sparkclient.Tags_init sc "Tags.xml";
  (* Create posts_tags table used to join Posts and Tags *)
  posts_tags ← sparkclient.PostsTags_init sc (sparkclient.df posts) (sparkclient.df tags);
  (* Save to Parquet *)
  sparkclient.Posts_save posts;;
  sparkclient.Tags_save tags;;
  sparkclient.PostsTags_save posts_tags;;
  (* Run Validation Checks *)
  r1 ← sparkclient.Posts_check verify posts;
  r2 ← sparkclient.Tags_check verify tags;
  r3 ← sparkclient.PostsTags_check verify posts_tags;
  let checks := (r1 ++ r2) ++ r3 in
  (* Connect to SQLite DB *)
  db ← db.Database_init (path +:+ os_sep +:+ "warehouse.db");
  (* Save Check Results *)
  db.to_sql refuses db (report_frame checks) "check_results" if_exists_replace;;
  (* If any check has failed -> exit with error *)
  let failed := filter (λ r, constraint_status r ≠ "Success") checks in
  if (0 <? length failed)%nat then
    sparkclient.stop sc;;
    sys_exit exit_message
  else
    (* Create tables in SQLite *)
    db.Posts_create db;;
    db.Tags_create db;;
    db.PostsTags_create db;;
    (* Save data in SQLite *)
    db.to_sql refuses db (sparkclient.df posts) "posts" if_exists_append;;
    db.to_sql refuses db (sparkclient.df tags) "tags" if_exists_append;;
    db.to_sql refuses db (sparkclient.df posts_tags) "posts_tags" if_exists_append;;
    (* Stop Spark Session *)
    sparkclient.stop sc;;
    print "Data Loaded Successfully!".
End Main.

(** * Vocabulary of the statements *)

(** The cell of row [r] of [df] under the column called [name]. *)
Definition field (df : DataFrame) (name : string) (r : Row) : Value :=
  match resolve (columns df) name with
  | Some i => cell i r
  | None => VNull
  end.

(** Post [p] carries tag [t]: its [Tags] cell is present and contains the
    tag's name between the two delimiters. *)
Definition tagged (posts_df tags_df : DataFrame) (p t : Row) : Prop :=
  ∃ s name : string,
    as_string (field posts_df "Tags" p) = Some s ∧
    as_string (field tags_df "TagName" t) = Some name ∧
    Str.is_substring ("<" +:+ name +:+ ">") s.

(** The association row of the pair: (p.Id, t.Id, t.TagName). *)
Definition association_row (posts_df tags_df : DataFrame) (p t : Row) : Row :=
  [field posts_df "Id" p; field tags_df "Id" t; field tags_df "TagName" t].

(** The frame [df] reduced to the single row [r]. *)
Definition only (r : Row) (df : DataFrame) : DataFrame :=
  {| columns := columns df; rows := [r] |}.

Definition aggregated_report (verify : deequ.Check → DataFrame → list deequ.ReportRow)
    (posts tags posts_tags : DataFrame) : list deequ.ReportRow :=
  (verify sparkclient.Posts_Check posts ++ verify sparkclient.Tags_Check tags)
  ++ verify sparkclient.PostsTags_Check posts_tags.

Definition gate_fails (checks : list deequ.ReportRow) : bool :=
  (0 <? length (filter (λ r, deequ.constraint_status r ≠ "Success") checks))%nat.

Definition persisted (def : option TableDef) (df : DataFrame) : SqlTable :=
  {| declared := def; loaded := [df] |}.

(** A table as its [create] leaves it: declared, and empty. *)
Definition created (def : TableDef) : SqlTable :=
  {| declared := Some def; loaded := [] |}.

(** The three loads of a run that passes the gate, in the order of
    [main]: the schema of the table and the frame offered to it. *)
Definition entity_loads (posts tags posts_tags : DataFrame) : list (TableDef * DataFrame) :=
  [(db.posts_def, posts); (db.tags_def, tags); (db.posts_tags_def, posts_tags)].

(** The first of the loads that the store refuses, each load being offered
    to the table just created: its position and the store's error. *)
Fixpoint first_refused (refuses : SqlTable → DataFrame → option string)
    (loads : list (TableDef * DataFrame)) : option (nat * string) :=
  match loads with
  | [] => None
  | (def, df) :: rest =>
      match refuses (created def) df with
      | Some what => Some (0%nat, what)
      | None => prod_map S id <$> first_refused refuses rest
      end
  end.

(** The table of the load at position [i] when the load at position [k]
    is the first one refused: loaded before it, left as created from it
    on. *)
Definition table_after (k i : nat) (def : TableDef) (df : DataFrame) : SqlTable :=
  if (i <? k)%nat then persisted (Some def) df else created def.

Definition events_to_gate (path : string) : list Event :=
  [ SparkSessionStarted "XML_Import";
    XmlRead (path +:+ os_sep +:+ "Posts.xml") "posts" "row" "FAILFAST";
    XmlRead (path +:+ os_sep +:+ "Tags.xml") "tags" "row" "FAILFAST";
    ParquetWritten "overwrite" (path +:+ os_sep +:+ "posts" +:+ ".parquet");
    ParquetWritten "overwrite" (path +:+ os_sep +:+ "tags" +:+ ".parquet");
    ParquetWritten "overwrite" (path +:+ os_sep +:+ "posts_tags" +:+ ".parquet");
    VerificationRun "Posts Check";
    VerificationRun "Tags Check";
    VerificationRun "Posts Tags Check";
    SqlConnected (path +:+ os_sep +:+ "warehouse.db");
    SqlLoaded "check_results" if_exists_replace ].

Definition events_of_commit : list Event :=
  [ SqlExecuted (DROP_TABLE_IF_EXISTS "posts");
    SqlExecuted (CREATE_TABLE_IF_NOT_EXISTS db.posts_def);
    SqlExecuted (DROP_TABLE_IF_EXISTS "tags");
    SqlExecuted (CREATE_TABLE_IF_NOT_EXISTS db.tags_def);
    SqlExecuted (DROP_TABLE_IF_EXISTS "posts_tags");
    SqlExecuted (CREATE_TABLE_IF_NOT_EXISTS db.posts_tags_def);
    SqlLoaded "posts" if_exists_append;
    SqlLoaded "tags" if_exists_append;
    SqlLoaded "posts_tags" if_exists_append;
    SparkSessionStopped;
    Printed "Data Loaded Successfully!" ].

(** The SQLite file of a run, and its tables. *)
Definition warehouse_url (path : string) : string := path +:+ os_sep +:+ "warehouse.db".

Definition warehouse (path : string) (w : World) : gmap string SqlTable :=
  db.tables_of (warehouse_url path) w.

(** The Parquet snapshot of a table. *)
Definition snapshot_url (path name : string) : string :=
  path +:+ os_sep +:+ name +:+ ".parquet".

(** The tables the commit gate protects. *)
Definition entity_tables : list string := ["posts"; "tags"; "posts_tags"].

(** The events of the first [k] loads of the entity tables. *)
Definition events_of_loads (k : nat) : list Event :=
  map (λ t, SqlLoaded t if_exists_append) (take k entity_tables).

(** The statements [Posts.create], [Tags.create] and [PostsTags.create] send. *)
Definition entity_ddl : list Statement :=
  [ DROP_TABLE_IF_EXISTS "posts"; CREATE_TABLE_IF_NOT_EXISTS db.posts_def;
    DROP_TABLE_IF_EXISTS "tags"; CREATE_TABLE_IF_NOT_EXISTS db.tags_def;
    DROP_TABLE_IF_EXISTS "posts_tags"; CREATE_TABLE_IF_NOT_EXISTS db.posts_tags_def ].

(** Readings of a stretch of the log.  The tables loaded are those
    [to_sql] was called on, a call that the store refuses included. *)
Definition tables_loaded (evs : list Event) : list string :=
  flat_map (λ e, match e with SqlLoaded table _ => [table] | _ => [] end) evs.

Definition statements_executed (evs : list Event) : list Statement :=
  flat_map (λ e, match e with SqlExecuted s => [s] | _ => [] end) evs.

Definition snapshots_written (evs : list Event) : list (string * string) :=
  flat_map (λ e, match e with ParquetWritten mode url => [(mode, url)] | _ => [] end) evs.

Definition verifications_run (evs : list Event) : list string :=
  flat_map (λ e, match e with VerificationRun d => [d] | _ => [] end) evs.

(** The two verdicts of the gate on a report. *)
Definition some_failed (report : list deequ.ReportRow) : Prop :=
  Exists (λ r, deequ.constraint_status r ≠ "Success") report.

Definition all_succeeded (report : list deequ.ReportRow) : Prop :=
  Forall (λ r, deequ.constraint_status r = "Success") report.

(** The run gets past loading and derivation with these three tables. *)
Definition tables_of_run (path : string) (w : World) (posts tags posts_tags : DataFrame) : Prop :=
  ∃ loaded_posts loaded_tags : DataFrame,
    xml_files w !! (path +:+ os_sep +:+ "Posts.xml") = Some loaded_posts ∧
    xml_files w !! (path +:+ os_sep +:+ "Tags.xml") = Some loaded_tags ∧
    posts = strip_prefix loaded_posts ∧
    tags = strip_prefix loaded_tags ∧
    PostsTags_df posts tags = Some posts_tags.

(** The claim C8 read on the events of a run: the entity tables are
    recreated before any snapshot is written, any check evaluated and any
    table loaded. *)
Definition recreates_schema_first (evs : list Event) : Prop :=
  ∃ before after : list Event,
    evs = before ++ map SqlExecuted entity_ddl ++ after ∧
    snapshots_written before = [] ∧
    verifications_run before = [] ∧
    tables_loaded before = [].

(** * A store that enforces what its tables declare *)

Definition has_constraint (c : ColumnConstraint) (col : ColumnDef) : bool :=
  bool_decide (c ∈ col_constraints col).

(** The columns of a table: those it declares, or those of the frame
    pandas created it from. *)
Definition column_names (t : SqlTable) : list string :=
  match declared t with
  | Some def => map col_name (table_columns def)
  | None => from_option columns [] (head (loaded t))
  end.

Definition not_null_columns (t : SqlTable) : list string :=
  match declared t with
  | Some def => map col_name (List.filter (has_constraint NOT_NULL) (table_columns def))
  | None => []
  end.

(** The keys of a table: each PRIMARY KEY or UNIQUE column, and the
    columns of each UNIQUE clause. *)
Definition unique_keys (t : SqlTable) : list (list string) :=
  match declared t with
  | Some def =>
      map (λ c, [col_name c])
          (List.filter (λ c, has_constraint PRIMARY_KEY c || has_constraint UNIQUE c)
             (table_columns def))
      ++ unique_together def
  | None => []
  end.

(** The cells of the rows of [frames] under the columns of [key]; a row
    with a null among them is left out, nulls being distinct from one
    another in a key. *)
Definition key_cells (key : list string) (frames : list DataFrame) : list (list Value) :=
  List.filter (λ cells, negb (bool_decide (VNull ∈ cells)))
    (flat_map (λ df, map (λ r, map (λ name, field df name r) key) (rows df)) frames).

Definition qualified (t : SqlTable) (column : string) : string :=
  from_option table_name EmptyString (declared t) +:+ "." +:+ column.

(** An instance of the parameter [refuses] of [store_frame]: the store
    refuses a frame that has a column the table has not, that lacks or
    leaves null a column declared NOT NULL, or with which a key of the
    table would hold the same cells twice, among the rows loaded and the
    new ones; it takes every other frame.  Foreign keys are not enforced:
    SQLite enforces them on request only, and [db.py] does not ask. *)
Definition constrained (t : SqlTable) (df : DataFrame) : option string :=
  match List.find (λ c, bool_decide (resolve (column_names t) c = None)) (columns df) with
  | Some c =>
      Some ("table " +:+ from_option table_name EmptyString (declared t)
            +:+ " has no column named " +:+ c)
  | None =>
      match List.find (λ name, existsb (λ r, bool_decide (field df name r = VNull)) (rows df))
                      (not_null_columns t) with
      | Some name => Some ("NOT NULL constraint failed: " +:+ qualified t name)
      | None =>
          match List.find (λ key, negb (bool_decide (NoDup (key_cells key (loaded t ++ [df])))))
                          (unique_keys t) with
          | Some key =>
              Some ("UNIQUE constraint failed: " +:+ String.concat ", " (map (qualified t) key))
          | None => None
          end
      end
  end.

(** * Example data *)

Definition ex_posts : DataFrame :=
  {| columns := ["Id"; "Tags"];
     rows := [[VLong 1; VStr "<a><b>"]; [VLong 2; VStr "<ab>"];
              [VLong 3; VNull]; [VLong 4; VStr EmptyString]] |}.

Definition ex_tags : DataFrame :=
  {| columns := ["Id"; "TagName"];
     rows := [[VLong 10; VStr "a"]; [VLong 11; VStr "b"]] |}.

Definition ex_posts_tags : DataFrame :=
  {| columns := ["PostId"; "TagId"; "TagName"];
     rows := [[VLong 1; VLong 10; VStr "a"]; [VLong 1; VLong 11; VStr "b"]] |}.

Definition ex_loaded : DataFrame :=
  {| columns := ["_Id"; "TagName"]; rows := [[VLong 10; VStr "a"]] |}.

Definition ex_files : World :=
  {| xml_files := {[ "data/Tags.xml" := ex_loaded ]};
     snapshots := ∅; databases := ∅; log := [] |}.

(** A small input: four posts and two tags, as the XML reader yields
    them. *)
Definition ex_posts_xml : DataFrame :=
  {| columns := ["_Id"; "_Tags"];
     rows := [[VLong 1; VStr "<a><b>"]; [VLong 2; VStr "<ab>"];
              [VLong 3; VNull]; [VLong 4; VStr EmptyString]] |}.

Definition ex_tags_xml : DataFrame :=
  {| columns := ["_Id"; "_TagName"];
     rows := [[VLong 10; VStr "a"]; [VLong 11; VStr "b"]] |}.

(** A world holding that input, stale snapshots and an earlier load of the
    entity tables. *)
Definition ex_world : World :=
  {| xml_files := {[ "data/Posts.xml" := ex_posts_xml; "data/Tags.xml" := ex_tags_xml ]};
     snapshots := {[ "data/posts.parquet" := mkDataFrame ["Id"] [] ]};
     databases :=
       {[ "data/warehouse.db" :=
            {[ "posts" := mkSqlTable (Some db.posts_def) [mkDataFrame ["Id"] [[VLong 7]]] ]} ]};
     log := [] |}.

(** A second input, with every column that [db.py] declares NOT NULL:
    two posts, the first of which carries both tags. *)
Definition ex_full_posts_xml : DataFrame :=
  {| columns := ["_Id"; "_PostTypeId"; "_Score"; "_Body"; "_LastActivityDate";
                 "_CommentCount"; "_ContentLicense"; "_Tags"];
     rows := [[VLong 1; VLong 1; VLong 5; VStr "How?"; VStr "2021-03-01T10:00:00.000";
               VLong 0; VStr "CC BY-SA 4.0"; VStr "<a><b>"];
              [VLong 2; VLong 2; VLong 3; VStr "So."; VStr "2021-03-02T10:00:00.000";
               VLong 1; VStr "CC BY-SA 4.0"; VNull]] |}.

Definition ex_full_tags_xml : DataFrame :=
  {| columns := ["_Id"; "_TagName"; "_Count"];
     rows := [[VLong 10; VStr "a"; VLong 1]; [VLong 11; VStr "b"; VLong 1]] |}.

Definition ex_full_posts : DataFrame :=
  {| columns := ["Id"; "PostTypeId"; "Score"; "Body"; "LastActivityDate";
                 "CommentCount"; "ContentLicense"; "Tags"];
     rows := rows ex_full_posts_xml |}.

Definition ex_full_tags : DataFrame :=
  {| columns := ["Id"; "TagName"; "Count"]; rows := rows ex_full_tags_xml |}.

(** A world holding the second input, and an earlier load of [posts]. *)
Definition ex_full : World :=
  {| xml_files := {[ "data/Posts.xml" := ex_full_posts_xml;
                     "data/Tags.xml" := ex_full_tags_xml ]};
     snapshots := ∅;
     databases :=
       {[ "data/warehouse.db" :=
            {[ "posts" := mkSqlTable (Some db.posts_def) [mkDataFrame ["Id"] [[VLong 7]]] ]} ]};
     log := [] |}.

(** Tags with an attribute that [db.py] declares no column for. *)
Definition ex_extra_tags_xml : DataFrame :=
  {| columns := ["_Id"; "_TagName"; "_Count"; "_Synonyms"];
     rows := [[VLong 10; VStr "a"; VLong 1; VLong 2];
              [VLong 11; VStr "b"; VLong 1; VNull]] |}.

Definition ex_extra_tags : DataFrame :=
  {| columns := ["Id"; "TagName"; "Count"; "Synonyms"]; rows := rows ex_extra_tags_xml |}.

(** The same world with these tags. *)
Definition ex_partial : World :=
  {| xml_files := {[ "data/Posts.xml" := ex_full_posts_xml;
                     "data/Tags.xml" := ex_extra_tags_xml ]};
     snapshots := ∅;
     databases :=
       {[ "data/warehouse.db" :=
            {[ "posts" := mkSqlTable (Some db.posts_def) [mkDataFrame ["Id"] [[VLong 7]]] ]} ]};
     log := [] |}.

(** A verification engine that finds nothing to report. *)
Definition no_findings (ck : deequ.Check) (df : DataFrame) : list deequ.ReportRow := [].

Import deequ.

(** A table of three columns that meets seven of the ten constraints of
    [ten_checks] and fails three. *)
Definition ex_table : DataFrame :=
  {| columns := ["Id"; "Score"; "Title"];
     rows := [[VLong 1; VLong 5; VStr "x"];
              [VLong 2; VLong (-1); VNull];
              [VLong 2; VLong 7; VNull]] |}.

Definition ten_checks : Check :=
  {| level := "Warning";
     description := "Ten checks";
     constraints :=
       [ hasSize (λ x, x >=? 3);
         isUnique "Id";
         isComplete "Id";
         isNonNegative "Id";
         isComplete "Score";
         isNonNegative "Score";
         isComplete "Title";
         hasCompleteness "Title" (λ x, ge_float x 0.25) "It should be above 0.25!";
         isContainedIn "Title" ["x"; "y"];
         hasSize (λ x, x >=? 1) ] |}.

(** Ten rows, of which the first four have a title. *)
Definition ex_titles : DataFrame :=
  {| columns := ["Title"];
     rows := [[VStr "a"]; [VStr "b"]; [VStr "c"]; [VStr "d"]; [VNull];
              [VNull]; [VNull]; [VNull]; [VNull]; [VNull]] |}.

(** * Vocabulary of the further properties *)

(** [PostsTags.__init__]'s join condition on a pair of rows, the columns
    being looked up by name. *)
Definition matches (posts_df tags_df : DataFrame) (pair : Row * Row) : bool :=
  bool_decide (join_condition (field posts_df "Tags" pair.1)
                              (field tags_df "TagName" pair.2) = Some true).

(** All the pairs of a post and a tag, post by post. *)
Definition pairs (posts_df tags_df : DataFrame) : list (Row * Row) :=
  flat_map (λ p, map (λ t, (p, t)) (rows tags_df)) (rows posts_df).

(** The frame [df] with the rows [rs] in place of its own. *)
Definition with_rows (df : DataFrame) (rs : list Row) : DataFrame :=
  {| columns := columns df; rows := rs |}.

(** The two input files of a run. *)
Definition posts_xml (path : string) : string := path +:+ os_sep +:+ "Posts.xml".

Definition tags_xml (path : string) : string := path +:+ os_sep +:+ "Tags.xml".

(** How many times the Spark session is stopped in a stretch of the log. *)
Definition sessions_stopped (evs : list Event) : nat :=
  length (flat_map (λ e, match e with SparkSessionStopped => [e] | _ => [] end) evs).

(** The three [create] methods of [db.py], each with the table it declares. *)
Definition entity_creators : list (TableDef * (db.Database → M unit)) :=
  [ (db.posts_def, db.Posts_create);
    (db.tags_def, db.Tags_create);
    (db.posts_tags_def, db.PostsTags_create) ].

(** The paths a run writes its snapshots to. *)
Definition snapshot_urls (path : string) : list string :=
  map (snapshot_url path) entity_tables.

(** A world whose two files have a column [TagName] without the marker:
    the reader turns it into [agName]. *)
Definition ex_unmarked : World :=
  {| xml_files := {[ "data/Posts.xml" := ex_loaded; "data/Tags.xml" := ex_loaded ]};
     snapshots := ∅; databases := ∅; log := [] |}.

(** * Properties *)

(** ** Lists *)

Lemma lookup_map {A B : Type} (f : A → B) (l : list A) (i : nat) :
  map f l !! i = f <$> l !! i.
Proof.
  revert i. induction l as [|x l IH]; intros [|i]; simpl; by try apply IH.
Qed.

(** ** Strings *)

Lemma append_String (a : ascii) (s t : string) :
  String a s +:+ t = String a (s +:+ t).
Proof. reflexivity. Qed.

Lemma append_Empty (t : string) : EmptyString +:+ t = t.
Proof. reflexivity. Qed.

Lemma prefix_spec (sub s : string) :
  String.prefix sub s = true ↔ ∃ after : string, s = sub +:+ after.
Proof.
  revert s. induction sub as [|a sub IH]; intros [|b s]; simpl.
  - split; [by exists EmptyString | done].
  - split; [by exists (String b s) | done].
  - split; [done | intros [after H]; discriminate].
  - setoid_rewrite append_String.
    destruct (ascii_dec a b) as [->|Hne].
    + rewrite IH. split; intros [after H]; exists after; congruence.
    + split; [done | intros [after H]; congruence].
Qed.

Lemma contains_spec (s sub : string) :
  Str.contains s sub = true ↔ Str.is_substring sub s.
Proof.
  unfold Str.is_substring. induction s as [|c s IH]; cbn [Str.contains].
  - rewrite orb_false_r, prefix_spec. split.
    + intros [after H]. by exists EmptyString, after.
    + intros [[|b before] [after H]]; [by exists after | discriminate].
  - rewrite orb_true_iff, prefix_spec, IH. split.
    + intros [[after H] | (before & after & H)].
      * by exists EmptyString, after.
      * exists (String c before), after. by rewrite append_String, H.
    + intros [[|b before] [after H]].
      * left. by exists after.
      * right. exists before, after. rewrite append_String in H. congruence.
Qed.

(** ** The containment join *)

Lemma join_condition_true (tags_cell tag_name : Value) :
  join_condition tags_cell tag_name = Some true ↔
  ∃ s name : string,
    as_string tags_cell = Some s ∧ as_string tag_name = Some name ∧
    Str.is_substring ("<" +:+ name +:+ ">") s.
Proof.
  unfold join_condition, wrapped.
  destruct (as_string tags_cell) as [s|], (as_string tag_name) as [name|]; simpl.
  - split.
    + intros [= H]. exists s, name. by rewrite <- contains_spec.
    + intros (s' & name' & [= <-] & [= <-] & H). f_equal. by apply contains_spec.
  - split; [done | by intros (? & ? & _ & ? & _)].
  - split; [done | by intros (? & ? & ? & _)].
  - split; [done | by intros (? & ? & ? & _)].
Qed.

Lemma PostsTags_df_inv (posts_df tags_df pt : DataFrame) :
  PostsTags_df posts_df tags_df = Some pt →
  ∃ pId pTags tId tName : nat,
    resolve (columns posts_df) "Id" = Some pId ∧
    resolve (columns posts_df) "Tags" = Some pTags ∧
    resolve (columns tags_df) "Id" = Some tId ∧
    resolve (columns tags_df) "TagName" = Some tName ∧
    pt = {| columns := ["PostId"; "TagId"; "TagName"];
            rows := join_rows pId pTags tId tName (rows posts_df) (rows tags_df) |}.
Proof.
  unfold PostsTags_df. intros H.
  destruct (resolve (columns posts_df) "Tags") as [pTags|]; [|done].
  destruct (resolve (columns tags_df) "TagName") as [tName|]; [|done].
  destruct (resolve (columns posts_df) "Id") as [pId|]; [|done].
  destruct (resolve (columns tags_df) "Id") as [tId|]; [|done].
  simpl in H. injection H as <-. by exists pId, pTags, tId, tName.
Qed.

Section JoinFacts.
Variables (posts_df tags_df : DataFrame) (pId pTags tId tName : nat).
Hypothesis HpId : resolve (columns posts_df) "Id" = Some pId.
Hypothesis HpTags : resolve (columns posts_df) "Tags" = Some pTags.
Hypothesis HtId : resolve (columns tags_df) "Id" = Some tId.
Hypothesis HtName : resolve (columns tags_df) "TagName" = Some tName.

Lemma select_row_fields (p t : Row) :
  select_row pId tId tName p t = association_row posts_df tags_df p t.
Proof using HpId HtId HtName.
  unfold select_row, association_row, field. by rewrite HpId, HtId, HtName.
Qed.

Lemma tagged_iff (p t : Row) :
  tagged posts_df tags_df p t ↔
  join_condition (cell pTags p) (cell tName t) = Some true.
Proof using HpTags HtName.
  unfold tagged, field. rewrite HpTags, HtName.
  symmetry. apply join_condition_true.
Qed.

Lemma joined_tagged (p t : Row) :
  tagged posts_df tags_df p t →
  joined pId pTags tId tName p t = [association_row posts_df tags_df p t].
Proof using All.
  rewrite tagged_iff. unfold joined. intros ->. by rewrite select_row_fields.
Qed.

Lemma joined_not_tagged (p t : Row) :
  ¬ tagged posts_df tags_df p t →
  joined pId pTags tId tName p t = [].
Proof using HpTags HtName.
  rewrite tagged_iff. unfold joined.
  by destruct (join_condition _ _) as [[|]|].
Qed.

Lemma elem_of_joined (r p t : Row) :
  r ∈ joined pId pTags tId tName p t ↔
  tagged posts_df tags_df p t ∧ r = association_row posts_df tags_df p t.
Proof using All.
  rewrite tagged_iff, <- select_row_fields. unfold joined.
  destruct (join_condition _ _) as [[|]|].
  - rewrite list_elem_of_singleton. split; [by intros -> | by intros [_ ->]].
  - rewrite elem_of_nil. split; [done | by intros [? _]].
  - rewrite elem_of_nil. split; [done | by intros [? _]].
Qed.

Lemma elem_of_join_rows (r : Row) :
  r ∈ join_rows pId pTags tId tName (rows posts_df) (rows tags_df) ↔
  ∃ p t : Row,
    p ∈ rows posts_df ∧ t ∈ rows tags_df ∧
    tagged posts_df tags_df p t ∧ r = association_row posts_df tags_df p t.
Proof using All.
  unfold join_rows. rewrite list_elem_of_In, in_flat_map. split.
  - intros (p & Hp & Hr). apply in_flat_map in Hr as (t & Ht & Hr).
    apply list_elem_of_In, elem_of_joined in Hr as [Htag ->].
    exists p, t. by rewrite !list_elem_of_In.
  - intros (p & t & Hp & Ht & Htag & ->). exists p.
    split; [by apply list_elem_of_In|]. apply in_flat_map. exists t.
    split; [by apply list_elem_of_In|].
    apply list_elem_of_In, elem_of_joined. done.
Qed.
End JoinFacts.

(** A join on two key-unique tables has pairwise distinct key pairs. *)
Lemma NoDup_join_keys {A B K1 K2 C : Type} (kp : A → K1) (kt : B → K2)
    (out : A → B → list C) (key : C → K1 * K2) (ps : list A) (ts : list B) :
  (∀ p t, out p t = [] ∨ ∃ c, out p t = [c] ∧ key c = (kp p, kt t)) →
  NoDup (map kp ps) → NoDup (map kt ts) →
  NoDup (map key (flat_map (λ p, flat_map (out p) ts) ps)).
Proof.
  intros Hout Hps Hts.
  assert (Hinner : ∀ p k, k ∈ map key (flat_map (out p) ts) →
                          k.1 = kp p ∧ k.2 ∈ map kt ts).
  { intros p k. clear Hts. induction ts as [|t ts' IH]; simpl.
    - by intros ?%elem_of_nil.
    - rewrite map_app, elem_of_app. intros [Hk|Hk].
      + destruct (Hout p t) as [Hnil|(c & Hc & Hkey)]; rewrite ?Hnil, ?Hc in Hk.
        * by apply elem_of_nil in Hk.
        * simpl in Hk. apply list_elem_of_singleton in Hk as ->.
          rewrite Hkey. simpl. split; [done | left].
      + destruct (IH Hk). split; [done | by right]. }
  assert (Hrow : ∀ p, NoDup (map key (flat_map (out p) ts))).
  { intros p. clear Hinner. induction ts as [|t ts' IH]; simpl; [constructor|].
    apply NoDup_cons in Hts as [Ht Hts'].
    rewrite map_app. apply NoDup_app. split_and!.
    - destruct (Hout p t) as [->|(c & -> & _)]; simpl;
        [constructor | apply NoDup_singleton].
    - intros k Hk Hk'.
      destruct (Hout p t) as [Hnil|(c & Hc & Hkey)]; rewrite ?Hnil, ?Hc in Hk.
      + by apply elem_of_nil in Hk.
      + simpl in Hk. apply list_elem_of_singleton in Hk as ->.
        apply Ht. clear IH Ht. induction ts' as [|t' ts'' IH]; simpl in *.
        * by apply elem_of_nil in Hk'.
        * rewrite map_app, elem_of_app in Hk'. destruct Hk' as [Hk'|Hk'].
          -- destruct (Hout p t') as [Hnil|(c' & Hc' & Hkey')];
               rewrite ?Hnil, ?Hc' in Hk'.
             ++ by apply elem_of_nil in Hk'.
             ++ simpl in Hk'. apply list_elem_of_singleton in Hk'.
                rewrite Hkey, Hkey' in Hk'. injection Hk' as ->. left.
          -- right. apply IH; [|done]. by apply NoDup_cons in Hts' as [_ ?].
    - by apply IH. }
  induction ps as [|p ps' IH]; simpl; [constructor|].
  apply NoDup_cons in Hps as [Hp Hps'].
  rewrite map_app. apply NoDup_app. split_and!.
  - apply Hrow.
  - intros k Hk Hk'. apply Hinner in Hk as [Hk1 _]. apply Hp. clear IH Hp.
    induction ps' as [|p' ps'' IH]; simpl in *.
    + by apply elem_of_nil in Hk'.
    + rewrite map_app, elem_of_app in Hk'. destruct Hk' as [Hk'|Hk'].
      * apply Hinner in Hk' as [Hk1' _]. rewrite <- Hk1, Hk1'. left.
      * right. apply IH; [by apply NoDup_cons in Hps' as [_ ?] | done].
  - by apply IH.
Qed.

(** ** Claims about the association table *)

(** Claim C2 (association derivation).  Whenever [PostsTags.__init__] builds its
    frame, a row belongs to it exactly when it is (p.Id, t.Id, t.TagName)
    for a post [p] and a tag [t] such that [p]'s [Tags] cell is present
    and contains the tag name between [<] and [>]; a pair in that relation
    contributes that row once, any other pair contributes nothing.  In
    particular: a post whose [Tags] is absent or empty contributes no row,
    whatever the tags; the tag [a] yields no row for a post tagged
    [<ab>]; a post tagged [<a><b>] yields exactly two rows against the
    tags [a] and [b], one per tag. *)
Theorem association_derivation (posts_df tags_df pt : DataFrame) :
  PostsTags_df posts_df tags_df = Some pt →
  (∀ r : Row,
     r ∈ rows pt ↔
     ∃ p t : Row, p ∈ rows posts_df ∧ t ∈ rows tags_df ∧
       tagged posts_df tags_df p t ∧ r = association_row posts_df tags_df p t) ∧
  (∀ p t : Row,
     tagged posts_df tags_df p t →
     PostsTags_df (only p posts_df) (only t tags_df) =
       Some {| columns := columns pt;
               rows := [association_row posts_df tags_df p t] |}) ∧
  (∀ p t : Row,
     ¬ tagged posts_df tags_df p t →
     PostsTags_df (only p posts_df) (only t tags_df) =
       Some {| columns := columns pt; rows := [] |}) ∧
  (∀ p : Row,
     field posts_df "Tags" p = VNull ∨ field posts_df "Tags" p = VStr EmptyString →
     PostsTags_df (only p posts_df) tags_df =
       Some {| columns := columns pt; rows := [] |}) ∧
  (∀ post_id tag_id : Value,
     PostsTags_df
       {| columns := ["Id"; "Tags"]; rows := [[post_id; VStr "<ab>"]] |}
       {| columns := ["Id"; "TagName"]; rows := [[tag_id; VStr "a"]] |} =
     Some {| columns := ["PostId"; "TagId"; "TagName"]; rows := [] |}) ∧
  (∀ post_id tag_a tag_b : Value,
     PostsTags_df
       {| columns := ["Id"; "Tags"]; rows := [[post_id; VStr "<a><b>"]] |}
       {| columns := ["Id"; "TagName"];
          rows := [[tag_a; VStr "a"]; [tag_b; VStr "b"]] |} =
     Some {| columns := ["PostId"; "TagId"; "TagName"];
             rows := [[post_id; tag_a; VStr "a"]; [post_id; tag_b; VStr "b"]] |}).
Proof.
  intros H.
  apply PostsTags_df_inv in H as (pId & pTags & tId & tName & HpId & HpTags & HtId & HtName & ->).
  simpl. split_and!.
  - intros r. by apply elem_of_join_rows.
  - intros p t Htag. unfold PostsTags_df, only. simpl.
    rewrite HpTags, HtName, HpId, HtId. simpl. do 2 f_equal.
    rewrite app_nil_r, app_nil_r. by apply joined_tagged.
  - intros p t Htag. unfold PostsTags_df, only. simpl.
    rewrite HpTags, HtName, HpId, HtId. simpl. do 2 f_equal.
    rewrite app_nil_r, app_nil_r. by eapply joined_not_tagged.
  - intros p Hp. unfold PostsTags_df, only. simpl.
    rewrite HpTags, HtName, HpId, HtId. simpl. do 2 f_equal.
    rewrite app_nil_r. induction (rows tags_df) as [|t ts IH]; simpl; [done|].
    rewrite IH, app_nil_r. eapply joined_not_tagged; [done..|].
    intros (s & name & Hs & _ & before & after & Hsub).
    destruct Hp as [Hp|Hp]; rewrite Hp in Hs; [done|].
    injection Hs as <-. destruct before; discriminate.
  - reflexivity.
  - reflexivity.
Qed.

Lemma association_derivation_witness :
  PostsTags_df ex_posts ex_tags = Some ex_posts_tags ∧
  ([VLong 1; VLong 10; VStr "a"] ∈ rows ex_posts_tags ↔
   ∃ p t : Row, p ∈ rows ex_posts ∧ t ∈ rows ex_tags ∧
     tagged ex_posts ex_tags p t ∧
     [VLong 1; VLong 10; VStr "a"] = association_row ex_posts ex_tags p t).
Proof.
  split; [reflexivity|].
  apply (association_derivation ex_posts ex_tags ex_posts_tags). reflexivity.
Defined.

(** Claim C5 (association uniqueness).  When no two rows of the posts table have
    the same [Id] cell and no two rows of the tags table have the same
    [Id] cell, the pairs (PostId, TagId) of the derived table are pairwise
    distinct. *)
Theorem association_unique (posts_df tags_df pt : DataFrame) :
  PostsTags_df posts_df tags_df = Some pt →
  NoDup (map (field posts_df "Id") (rows posts_df)) →
  NoDup (map (field tags_df "Id") (rows tags_df)) →
  NoDup (map (λ r, (field pt "PostId" r, field pt "TagId" r)) (rows pt)).
Proof.
  intros H Hposts Htags.
  apply PostsTags_df_inv in H as (pId & pTags & tId & tName & HpId & HpTags & HtId & HtName & ->).
  simpl. unfold join_rows.
  apply (NoDup_join_keys (field posts_df "Id") (field tags_df "Id")); [|done..].
  intros p t. unfold joined.
  destruct (join_condition _ _) as [[|]|]; [right | by left..].
  eexists. split; [done|].
  unfold field, select_row. by rewrite HpId, HtId.
Qed.

Lemma association_unique_witness :
  NoDup (map (λ r, (field ex_posts_tags "PostId" r, field ex_posts_tags "TagId" r))
             (rows ex_posts_tags)).
Proof.
  apply (association_unique ex_posts ex_tags ex_posts_tags).
  - reflexivity.
  - apply (bool_decide_unpack _). vm_compute. exact I.
  - apply (bool_decide_unpack _). vm_compute. exact I.
Defined.

(** Claim C6 (referential integrity).  Every row of the derived table takes its
    [PostId] from the [Id] of a row of the posts table, and its [TagId] and
    its [TagName] from the [Id] and the [TagName] of one and the same row
    of the tags table. *)
Theorem association_referential_integrity (posts_df tags_df pt : DataFrame) (r : Row) :
  PostsTags_df posts_df tags_df = Some pt →
  r ∈ rows pt →
  ∃ p t : Row, p ∈ rows posts_df ∧ t ∈ rows tags_df ∧
    field pt "PostId" r = field posts_df "Id" p ∧
    field pt "TagId" r = field tags_df "Id" t ∧
    field pt "TagName" r = field tags_df "TagName" t.
Proof.
  intros H Hr.
  apply PostsTags_df_inv in H as (pId & pTags & tId & tName & HpId & HpTags & HtId & HtName & ->).
  simpl in Hr. eapply elem_of_join_rows in Hr as (p & t & Hp & Ht & _ & ->); [|done..].
  by exists p, t.
Qed.

Lemma association_referential_integrity_witness :
  ∃ p t : Row, p ∈ rows ex_posts ∧ t ∈ rows ex_tags ∧
    field ex_posts_tags "PostId" [VLong 1; VLong 11; VStr "b"] = field ex_posts "Id" p ∧
    field ex_posts_tags "TagId" [VLong 1; VLong 11; VStr "b"] = field ex_tags "Id" t ∧
    field ex_posts_tags "TagName" [VLong 1; VLong 11; VStr "b"] = field ex_tags "TagName" t.
Proof.
  apply (association_referential_integrity ex_posts ex_tags ex_posts_tags).
  - reflexivity.
  - apply (bool_decide_unpack _). vm_compute. exact I.
Defined.

(** ** Loading *)

(** Claim C9 (unconditional prefix stripping).  For every file the reader can
    load, [parse_xml] returns the loaded rows under the loaded column names
    each deprived of its first character, whatever that character is
    (an empty name stays empty): a name that does not start with the
    marker loses its first character all the same, as [Id] becoming
    [d]. *)
Theorem prefix_stripping_unconditional (self : sparkclient.SparkClient)
    (url root_tag row_tag mode : string) (w : World) (loaded : DataFrame) :
  xml_files w !! url = Some loaded →
  ∃ (out : DataFrame) (w' : World),
    sparkclient.parse_xml self url root_tag row_tag mode w = (inr out, w') ∧
    rows out = rows loaded ∧
    length (columns out) = length (columns loaded) ∧
    (∀ (i : nat) (first : ascii) (rest : string),
       columns loaded !! i = Some (String first rest) →
       columns out !! i = Some rest) ∧
    (∀ i : nat,
       columns loaded !! i = Some EmptyString →
       columns out !! i = Some EmptyString) ∧
    columns (strip_prefix {| columns := ["_Id"; "Id"]; rows := [] |}) = ["Id"; "d"].
Proof.
  intros H. unfold sparkclient.parse_xml, mbind, M_bind. simpl. rewrite H.
  eexists _, _. split; [reflexivity|]. simpl. split_and!.
  - done.
  - by rewrite length_map.
  - intros i first rest Hi. by rewrite lookup_map, Hi.
  - intros i Hi. by rewrite lookup_map, Hi.
  - done.
Qed.

Lemma prefix_stripping_unconditional_witness :
  ∃ (out : DataFrame) (w' : World),
    sparkclient.parse_xml (sparkclient.mkSparkClient "Test" "data")
      "data/Tags.xml" "tags" "row" "FAILFAST" ex_files = (inr out, w') ∧
    rows out = rows ex_loaded ∧
    length (columns out) = length (columns ex_loaded) ∧
    (∀ (i : nat) (first : ascii) (rest : string),
       columns ex_loaded !! i = Some (String first rest) →
       columns out !! i = Some rest) ∧
    (∀ i : nat,
       columns ex_loaded !! i = Some EmptyString →
       columns out !! i = Some EmptyString) ∧
    columns (strip_prefix {| columns := ["_Id"; "Id"]; rows := [] |}) = ["Id"; "d"].
Proof.
  apply prefix_stripping_unconditional. reflexivity.
Defined.

(** ** The verification run *)

Lemma status_cases (ok : bool) : status ok = "Success" ∨ status ok = "Failure".
Proof. destruct ok; [by left | by right]. Qed.

Lemma status_Success (ok : bool) : status ok = "Success" ↔ ok = true.
Proof. by destruct ok. Qed.

Lemma status_Failure (ok : bool) : status ok = "Failure" ↔ ok = false.
Proof. by destruct ok. Qed.

Lemma failures_count (ck : Check) (overall : string) (df : DataFrame) (cs : list Constraint) :
  length (filter (λ row, constraint_status row = "Failure") (map (evaluate ck overall df) cs)) =
  length (filter (λ c, holds df c = false) cs).
Proof.
  induction cs as [|c cs IH]; [done|]. simpl.
  rewrite !filter_cons. simpl.
  destruct (holds df c); simpl; by rewrite ?IH.
Qed.

Lemma successes_count (ck : Check) (overall : string) (df : DataFrame) (cs : list Constraint) :
  length (filter (λ row, constraint_status row = "Success") (map (evaluate ck overall df) cs)) =
  length (filter (λ c, holds df c = true) cs).
Proof.
  induction cs as [|c cs IH]; [done|]. simpl.
  rewrite !filter_cons. simpl.
  destruct (holds df c); simpl; by rewrite ?IH.
Qed.

(** Claim C3 (full-battery evaluation), over the verification run
    modelled from the spec.  The verification run returns one report
    row per constraint of the check, in the order of the constraints: the
    row of a constraint says [Success] when the table meets it and
    [Failure] when it does not, so that the failures reported are as many
    as the constraints not met, whatever their number and position.  A
    table failing 3 of 10 constraints gets 10 rows, 3 [Failure] and 7
    [Success]; the checks of the three tables always yield 26, 12 and 6
    rows. *)
Theorem full_battery_evaluation (ck : Check) (df : DataFrame) :
  length (run ck df) = length (constraints ck) ∧
  (∀ (i : nat) (c : Constraint),
     constraints ck !! i = Some c →
     ∃ row : ReportRow,
       run ck df !! i = Some row ∧
       constraint row = rule c ∧
       (constraint_status row = "Success" ↔ holds df c = true) ∧
       (constraint_status row = "Failure" ↔ holds df c = false)) ∧
  Forall (λ row, constraint_status row = "Success" ∨ constraint_status row = "Failure")
         (run ck df) ∧
  length (filter (λ row, constraint_status row = "Failure") (run ck df)) =
    length (filter (λ c, holds df c = false) (constraints ck)) ∧
  length (filter (λ row, constraint_status row = "Success") (run ck df)) =
    length (filter (λ c, holds df c = true) (constraints ck)) ∧
  (length (run ten_checks ex_table) = 10%nat ∧
   length (filter (λ row, constraint_status row = "Failure") (run ten_checks ex_table)) = 3%nat ∧
   length (filter (λ row, constraint_status row = "Success") (run ten_checks ex_table)) = 7%nat) ∧
  (length (run sparkclient.Posts_Check df) = 26%nat ∧
   length (run sparkclient.Tags_Check df) = 12%nat ∧
   length (run sparkclient.PostsTags_Check df) = 6%nat).
Proof.
  unfold run. cbv zeta. split_and!.
  - by rewrite length_map.
  - intros i c Hi. eexists. split.
    + by rewrite lookup_map, Hi.
    + simpl. split_and!; [done | apply status_Success | apply status_Failure].
  - apply Forall_forall. intros row Hrow.
    apply list_elem_of_In, in_map_iff in Hrow as (c & <- & _). apply status_cases.
  - apply failures_count.
  - apply successes_count.
  - by vm_compute.
  - by vm_compute.
  - by vm_compute.
  - by rewrite length_map.
  - by rewrite length_map.
  - by rewrite length_map.
Qed.

(** Claim C4 (completeness arithmetic), over the verification run
    modelled from the spec.  The report row of
    [hasCompleteness(column, assertion, hint)] says [Success] exactly when
    the assertion holds of the number of non-null cells of the column
    divided by the number of rows, and carries the hint as its message
    when it says [Failure].  With the assertion [x >= 0.5] on a column of
    10 rows, 4 non-null cells give [Failure] with the hint and 5 give
    [Success]. *)
Theorem completeness_arithmetic (ck : Check) (df : DataFrame) (column hint : string)
    (assertion : float → bool) (vs : list Value) :
  column_values df column = Some vs →
  let fraction :=
    PrimFloat.div (float_of_nat (length (filter (λ v, v ≠ VNull) vs)))
                  (float_of_nat (length (rows df))) in
  let ck1 := {| level := level ck; description := description ck;
                constraints := [hasCompleteness column assertion hint] |} in
  (∃ row : ReportRow,
     run ck1 df = [row] ∧
     (constraint_status row = "Success" ↔ assertion fraction = true) ∧
     (constraint_status row = "Failure" ↔ assertion fraction = false) ∧
     (assertion fraction = false → constraint_message row = Some hint)) ∧
  (length (rows df) = 10%nat → length (filter (λ v, v ≠ VNull) vs) = 4%nat →
   ge_float fraction 0.5 = false ∧
   ∃ row : ReportRow,
     run {| level := level ck; description := description ck;
            constraints := [hasCompleteness column (λ x, ge_float x 0.5) hint] |} df = [row] ∧
     constraint_status row = "Failure" ∧ constraint_message row = Some hint) ∧
  (length (rows df) = 10%nat → length (filter (λ v, v ≠ VNull) vs) = 5%nat →
   ge_float fraction 0.5 = true ∧
   ∃ row : ReportRow,
     run {| level := level ck; description := description ck;
            constraints := [hasCompleteness column (λ x, ge_float x 0.5) hint] |} df = [row] ∧
     constraint_status row = "Success").
Proof.
  intros Hvs fraction ck1.
  assert (Hlen : length vs = length (rows df)).
  { unfold column_values in Hvs. destruct (resolve _ _); [|done].
    injection Hvs as <-. apply length_map. }
  assert (Hfrac : completeness vs = fraction).
  { unfold completeness, fraction, non_null. by rewrite Hlen. }
  assert (Hrow : ∀ a : float → bool,
    ∃ row : ReportRow,
      run {| level := level ck; description := description ck;
             constraints := [hasCompleteness column a hint] |} df = [row] ∧
      constraint_status row = status (a fraction) ∧
      (a fraction = false → constraint_message row = Some hint)).
  { intros a. eexists. split; [reflexivity|]. simpl. rewrite Hvs, Hfrac.
    split; [done|]. by intros ->. }
  split_and!.
  - destruct (Hrow assertion) as (row & Hrun & Hst & Hmsg). exists row.
    rewrite Hst. split_and!; [done | apply status_Success | apply status_Failure | done].
  - intros H10 H4.
    assert (Hv : ge_float fraction 0.5 = false).
    { unfold fraction. rewrite H10, H4. by vm_compute. }
    split; [done|].
    destruct (Hrow (λ x, ge_float x 0.5)) as (row & Hrun & Hst & Hmsg). exists row.
    rewrite Hst, Hv. auto.
  - intros H10 H5.
    assert (Hv : ge_float fraction 0.5 = true).
    { unfold fraction. rewrite H10, H5. by vm_compute. }
    split; [done|].
    destruct (Hrow (λ x, ge_float x 0.5)) as (row & Hrun & Hst & Hmsg). exists row.
    by rewrite Hst, Hv.
Qed.

Lemma completeness_arithmetic_witness :
  ∃ row : ReportRow,
    run {| level := "Warning"; description := "Titles";
           constraints := [hasCompleteness "Title" (λ x, ge_float x 0.5)
                                           "It should be above 0.5!"] |}
        ex_titles = [row] ∧
    constraint_status row = "Failure" ∧
    constraint_message row = Some "It should be above 0.5!".
Proof.
  apply (completeness_arithmetic (mkCheck "Warning" "Titles" []) ex_titles
           "Title" "It should be above 0.5!" (λ x, ge_float x 0.5)
           (map (cell 0) (rows ex_titles))); reflexivity.
Defined.

(** ** Running the operations *)

Lemma bind_inr {A B : Type} (m : M A) (f : A → M B) (w w' : World) (a : A) :
  m w = (inr a, w') → (m ≫= f) w = f a w'.
Proof. intros H. unfold mbind, M_bind. by rewrite H. Qed.

Lemma bind_inl {A B : Type} (m : M A) (f : A → M B) (w w' : World) (e : Exn) :
  m w = (inl e, w') → (m ≫= f) w = (inl e, w').
Proof. intros H. unfold mbind, M_bind. by rewrite H. Qed.

Lemma SparkClient_init_run (app_name path : string) (w : World) :
  sparkclient.SparkClient_init app_name path w =
  (inr (sparkclient.mkSparkClient app_name path), log_event (SparkSessionStarted app_name) w).
Proof. reflexivity. Qed.

Lemma parse_xml_run (self : sparkclient.SparkClient) (url root_tag row_tag mode : string)
    (w : World) :
  sparkclient.parse_xml self url root_tag row_tag mode w =
  (match xml_files w !! url with
   | Some loaded => inr (strip_prefix loaded)
   | None => inl (XmlError url)
   end,
   log_event (XmlRead url root_tag row_tag mode) w).
Proof.
  cbv [sparkclient.parse_xml mbind M_bind emit get_world log_event xml_files mret M_ret raise].
  by destruct (_ !! _).
Qed.

Lemma write_parquet_run (self : sparkclient.SparkClient) (df : DataFrame) (name : string)
    (w : World) :
  sparkclient.write_parquet self df name w =
  (inr tt,
   with_snapshots
     (<[sparkclient.path self +:+ os_sep +:+ name +:+ ".parquet" := df]> (snapshots w))
     (log_event (ParquetWritten "overwrite"
        (sparkclient.path self +:+ os_sep +:+ name +:+ ".parquet")) w)).
Proof. reflexivity. Qed.

Lemma run_check_run (verify : deequ.Check → DataFrame → list deequ.ReportRow)
    (ck : deequ.Check) (self : sparkclient.Dataset) (w : World) :
  sparkclient.run_check verify ck self w =
  (inr (verify ck (sparkclient.df self)), log_event (VerificationRun (deequ.description ck)) w).
Proof. reflexivity. Qed.

Lemma stop_run (self : sparkclient.SparkClient) (w : World) :
  sparkclient.stop self w = (inr tt, log_event SparkSessionStopped w).
Proof. reflexivity. Qed.

Lemma can_open_log (url : string) (e : Event) (w : World) :
  db.can_open url (log_event e w) = db.can_open url w.
Proof. reflexivity. Qed.

Lemma Database_init_run (url : string) (w : World) :
  db.Database_init url w =
  if db.can_open url w then
    (inr (db.mkDatabase url),
     with_databases (<[url := db.tables_of url w]> (databases w)) (log_event (SqlConnected url) w))
  else
    (inl (DatabaseError "unable to open database file"), log_event (SqlConnected url) w).
Proof.
  cbv [db.Database_init mbind M_bind emit get_world].
  rewrite can_open_log. by destruct (db.can_open url w).
Qed.

Lemma dirname_file (dir name : string) :
  dirname name = None → dirname (dir +:+ os_sep +:+ name) = Some dir.
Proof.
  intros Hname. induction dir as [|c dir IH].
  - change (dirname (String "/" name) = Some EmptyString).
    cbn [dirname]. by rewrite Hname.
  - rewrite append_String. cbn [dirname]. by rewrite IH.
Qed.

(** A file can be opened, or created, beside a snapshot. *)
Lemma can_open_beside (dir name other : string) (df : DataFrame) (w : World) :
  snapshots w !! (dir +:+ os_sep +:+ other) = Some df →
  dirname name = None →
  db.can_open (dir +:+ os_sep +:+ name) w = true.
Proof.
  intros Hsnap Hname. unfold db.can_open. rewrite (dirname_file dir name Hname).
  apply orb_true_intro. right. unfold directory_exists.
  apply orb_true_intro. right. apply existsb_exists.
  exists (dir +:+ os_sep +:+ other). split.
  - apply list_elem_of_In. unfold paths. rewrite !elem_of_app. right. left.
    apply list_elem_of_fmap. exists (dir +:+ os_sep +:+ other, df).
    split; [done|]. by apply elem_of_map_to_list.
  - apply prefix_spec. exists other. clear.
    induction dir as [|c dir IH]; [done|]. rewrite !append_String. by f_equal.
Qed.

Lemma to_sql_run (refuses : SqlTable → DataFrame → option string)
    (self : db.Database) (df : DataFrame) (table : string)
    (if_exists : IfExists) (w : World) :
  db.to_sql refuses self df table if_exists w =
  match store_frame refuses df table if_exists (db.tables_of (db.url self) w) with
  | inl e => (inl e, log_event (SqlLoaded table if_exists) w)
  | inr st =>
      (inr tt, with_databases (<[db.url self := st]> (databases w))
                 (log_event (SqlLoaded table if_exists) w))
  end.
Proof.
  cbv [db.to_sql mbind M_bind emit get_world set_databases raise].
  change (db.tables_of (db.url self) (log_event (SqlLoaded table if_exists) w))
    with (db.tables_of (db.url self) w).
  by destruct (store_frame _ _ _ _ _).
Qed.

Lemma execute_run (self : db.Database) (s : Statement) (w : World) :
  db.execute self s w =
  (inr tt, with_databases
     (<[db.url self := exec_statement s (db.tables_of (db.url self) w)]> (databases w))
     (log_event (SqlExecuted s) w)).
Proof. reflexivity. Qed.

Lemma store_frame_replace (refuses : SqlTable → DataFrame → option string)
    (df : DataFrame) (table : string) (st : gmap string SqlTable) :
  store_frame refuses df table if_exists_replace st = inr (<[table := persisted None df]> st).
Proof. unfold store_frame. by destruct (st !! table). Qed.

Lemma store_frame_append (refuses : SqlTable → DataFrame → option string)
    (df : DataFrame) (table : string) (st : gmap string SqlTable) (t : SqlTable) :
  st !! table = Some t →
  store_frame refuses df table if_exists_append st =
  match refuses t df with
  | Some what => inl (DatabaseError what)
  | None => inr (<[table := {| declared := declared t; loaded := loaded t ++ [df] |}]> st)
  end.
Proof. unfold store_frame. by intros ->. Qed.

Lemma recreate (def : TableDef) (st : gmap string SqlTable) :
  exec_statement (CREATE_TABLE_IF_NOT_EXISTS def)
    (exec_statement (DROP_TABLE_IF_EXISTS (table_name def)) st) =
  <[table_name def := {| declared := Some def; loaded := [] |}]> st.
Proof.
  unfold exec_statement. rewrite lookup_delete_eq. apply insert_delete_eq.
Qed.

Lemma tables_of_insert (url : string) (st : gmap string SqlTable)
    (d : gmap string (gmap string SqlTable)) (x : gmap string DataFrame)
    (s : gmap string DataFrame) (l : list Event) :
  db.tables_of url {| xml_files := x; snapshots := s; databases := <[url := st]> d; log := l |} = st.
Proof. unfold db.tables_of. cbn [databases]. by rewrite lookup_insert_eq. Qed.

Lemma Posts_init_run (sc : sparkclient.SparkClient) (xml : string) (w : World) (loaded : DataFrame) :
  xml_files w !! (sparkclient.path sc +:+ os_sep +:+ xml) = Some loaded →
  sparkclient.Posts_init sc xml w =
  (inr (sparkclient.mkDataset sc (strip_prefix loaded)),
   log_event (XmlRead (sparkclient.path sc +:+ os_sep +:+ xml) "posts" "row" "FAILFAST") w).
Proof.
  intros H. unfold sparkclient.Posts_init, mbind, M_bind. by rewrite parse_xml_run, H.
Qed.

Lemma Posts_init_fails (sc : sparkclient.SparkClient) (xml : string) (w : World) :
  xml_files w !! (sparkclient.path sc +:+ os_sep +:+ xml) = None →
  sparkclient.Posts_init sc xml w =
  (inl (XmlError (sparkclient.path sc +:+ os_sep +:+ xml)),
   log_event (XmlRead (sparkclient.path sc +:+ os_sep +:+ xml) "posts" "row" "FAILFAST") w).
Proof.
  intros H. unfold sparkclient.Posts_init, mbind, M_bind. by rewrite parse_xml_run, H.
Qed.

Lemma Tags_init_run (sc : sparkclient.SparkClient) (xml : string) (w : World) (loaded : DataFrame) :
  xml_files w !! (sparkclient.path sc +:+ os_sep +:+ xml) = Some loaded →
  sparkclient.Tags_init sc xml w =
  (inr (sparkclient.mkDataset sc (strip_prefix loaded)),
   log_event (XmlRead (sparkclient.path sc +:+ os_sep +:+ xml) "tags" "row" "FAILFAST") w).
Proof.
  intros H. unfold sparkclient.Tags_init, mbind, M_bind. by rewrite parse_xml_run, H.
Qed.

Lemma Tags_init_fails (sc : sparkclient.SparkClient) (xml : string) (w : World) :
  xml_files w !! (sparkclient.path sc +:+ os_sep +:+ xml) = None →
  sparkclient.Tags_init sc xml w =
  (inl (XmlError (sparkclient.path sc +:+ os_sep +:+ xml)),
   log_event (XmlRead (sparkclient.path sc +:+ os_sep +:+ xml) "tags" "row" "FAILFAST") w).
Proof.
  intros H. unfold sparkclient.Tags_init, mbind, M_bind. by rewrite parse_xml_run, H.
Qed.

Lemma PostsTags_init_run (sc : sparkclient.SparkClient) (posts_df tags_df : DataFrame) (w : World) :
  sparkclient.PostsTags_init sc posts_df tags_df w =
  match PostsTags_df posts_df tags_df with
  | Some df => (inr (sparkclient.mkDataset sc df), w)
  | None => (inl (AnalysisException "cannot resolve column"), w)
  end.
Proof. unfold sparkclient.PostsTags_init. by destruct (PostsTags_df _ _). Qed.

Lemma tables_of_same (url : string) (w : World) (x : gmap string DataFrame)
    (s : gmap string DataFrame) (l : list Event) :
  db.tables_of url {| xml_files := x; snapshots := s; databases := databases w; log := l |} =
  db.tables_of url w.
Proof. reflexivity. Qed.

Ltac norm :=
  unfold log_event, with_snapshots, with_databases;
  cbn [xml_files snapshots databases log
       sparkclient.path sparkclient.sc sparkclient.df db.url].

Ltac tidy :=
  norm; rewrite ?tables_of_insert, ?insert_insert_eq, <- ?app_assoc; cbn [app].

Ltac step lem := erewrite bind_inr; [|apply lem]; norm.

Lemma create_run (self : db.Database) (def : TableDef) (w : World) :
  (db.execute self (DROP_TABLE_IF_EXISTS (table_name def));;
   db.execute self (CREATE_TABLE_IF_NOT_EXISTS def)) w =
  (inr tt,
   {| xml_files := xml_files w; snapshots := snapshots w;
      databases :=
        <[db.url self := <[table_name def := {| declared := Some def; loaded := [] |}]>
                           (db.tables_of (db.url self) w)]> (databases w);
      log := log w ++ [SqlExecuted (DROP_TABLE_IF_EXISTS (table_name def));
                       SqlExecuted (CREATE_TABLE_IF_NOT_EXISTS def)] |}).
Proof.
  step execute_run. rewrite execute_run. tidy. by rewrite recreate.
Qed.

Lemma append_run (refuses : SqlTable → DataFrame → option string)
    (self : db.Database) (df : DataFrame) (table : string) (t : SqlTable) (w : World) :
  db.tables_of (db.url self) w !! table = Some t →
  refuses t df = None →
  db.to_sql refuses self df table if_exists_append w =
  (inr tt,
   {| xml_files := xml_files w; snapshots := snapshots w;
      databases :=
        <[db.url self := <[table := {| declared := declared t; loaded := loaded t ++ [df] |}]>
                           (db.tables_of (db.url self) w)]> (databases w);
      log := log w ++ [SqlLoaded table if_exists_append] |}).
Proof. intros H Hok. by rewrite to_sql_run, (store_frame_append _ _ _ _ _ H), Hok. Qed.

Lemma append_refused (refuses : SqlTable → DataFrame → option string)
    (self : db.Database) (df : DataFrame) (table what : string) (t : SqlTable) (w : World) :
  db.tables_of (db.url self) w !! table = Some t →
  refuses t df = Some what →
  db.to_sql refuses self df table if_exists_append w =
  (inl (DatabaseError what),
   {| xml_files := xml_files w; snapshots := snapshots w; databases := databases w;
      log := log w ++ [SqlLoaded table if_exists_append] |}).
Proof. intros H Hno. by rewrite to_sql_run, (store_frame_append _ _ _ _ _ H), Hno. Qed.

Lemma gate_fails_true (report : list deequ.ReportRow) :
  gate_fails report = true ↔ some_failed report.
Proof.
  unfold gate_fails, some_failed. rewrite Nat.ltb_lt.
  induction report as [|r report IH]; simpl.
  - split; [lia | by intros ?%Exists_nil].
  - rewrite filter_cons, Exists_cons. destruct (decide _) as [H|H]; simpl.
    + split; [by left | lia].
    + rewrite IH. split; [by right | by intros [?|?]].
Qed.

Lemma gate_fails_false (report : list deequ.ReportRow) :
  gate_fails report = false ↔ all_succeeded report.
Proof.
  unfold gate_fails, all_succeeded. rewrite Nat.ltb_ge.
  induction report as [|r report IH]; simpl.
  - split; [constructor | lia].
  - rewrite filter_cons, Forall_cons. destruct (decide _) as [H|H]; simpl.
    + split; [lia | by intros [? _]].
    + rewrite IH. apply dec_stable in H. split; [done | by intros [_ ?]].
Qed.

Lemma append_inj (s a b : string) : s +:+ a = s +:+ b → a = b.
Proof.
  induction s as [|c s IH]; [done|]. rewrite !append_String. intros [= H]. by apply IH.
Qed.

Lemma snapshot_url_inj (path a b : string) :
  snapshot_url path a = snapshot_url path b → a +:+ ".parquet" = b +:+ ".parquet".
Proof. unfold snapshot_url. intros H. by do 2 apply append_inj in H. Qed.


Ltac same_tables :=
  apply map_eq; intros k;
  destruct (decide (k = "posts_tags")) as [->|?];
    [by repeat (rewrite lookup_insert_eq || rewrite lookup_insert_ne by done)|];
  destruct (decide (k = "tags")) as [->|?];
    [by repeat (rewrite lookup_insert_eq || rewrite lookup_insert_ne by done)|];
  destruct (decide (k = "posts")) as [->|?];
    by repeat (rewrite lookup_insert_eq || rewrite lookup_insert_ne by done).

(** The entity tables once [create]d, then loaded up to the first
    refusal. *)
Lemma loaded_one (st : gmap string SqlTable) (e1 e2 e3 l1 : SqlTable) :
  <["posts" := l1]> (<["posts_tags" := e3]> (<["tags" := e2]> (<["posts" := e1]> st))) =
  <["posts_tags" := e3]> (<["tags" := e2]> (<["posts" := l1]> st)).
Proof. same_tables. Qed.

Lemma loaded_two (st : gmap string SqlTable) (e2 e3 l1 l2 : SqlTable) :
  <["tags" := l2]> (<["posts_tags" := e3]> (<["tags" := e2]> (<["posts" := l1]> st))) =
  <["posts_tags" := e3]> (<["tags" := l2]> (<["posts" := l1]> st)).
Proof. same_tables. Qed.

Section Run.
Variable verify : Check → DataFrame → list ReportRow.
Variable refuses : SqlTable → DataFrame → option string.
Variables (path : string) (w : World).
Variables (loaded_posts loaded_tags posts_tags : DataFrame).
Hypothesis Hposts : xml_files w !! (path +:+ os_sep +:+ "Posts.xml") = Some loaded_posts.
Hypothesis Htags : xml_files w !! (path +:+ os_sep +:+ "Tags.xml") = Some loaded_tags.
Hypothesis Hjoin :
  PostsTags_df (strip_prefix loaded_posts) (strip_prefix loaded_tags) = Some posts_tags.

Lemma main_run :
  let posts := strip_prefix loaded_posts in
  let tags := strip_prefix loaded_tags in
  let report := aggregated_report verify posts tags posts_tags in
  let url := path +:+ os_sep +:+ "warehouse.db" in
  let snaps : gmap string DataFrame :=
    <[path +:+ os_sep +:+ "posts_tags" +:+ ".parquet" := posts_tags]>
      (<[path +:+ os_sep +:+ "tags" +:+ ".parquet" := tags]>
        (<[path +:+ os_sep +:+ "posts" +:+ ".parquet" := posts]> (snapshots w))) in
  let audited : gmap string SqlTable :=
    <["check_results" := persisted None (report_frame report)]> (db.tables_of url w) in
  main verify refuses path w =
  if gate_fails report then
    (inl (SystemExit exit_message),
     {| xml_files := xml_files w; snapshots := snaps;
        databases := <[url := audited]> (databases w);
        log := log w ++ events_to_gate path ++ [SparkSessionStopped] |})
  else
    match first_refused refuses (entity_loads posts tags posts_tags) with
    | None =>
        (inr tt,
         {| xml_files := xml_files w; snapshots := snaps;
            databases :=
              <[url := <["posts_tags" := persisted (Some db.posts_tags_def) posts_tags]>
                        (<["tags" := persisted (Some db.tags_def) tags]>
                          (<["posts" := persisted (Some db.posts_def) posts]> audited))]>
                (databases w);
            log := log w ++ events_to_gate path ++ events_of_commit |})
    | Some (k, what) =>
        (inl (DatabaseError what),
         {| xml_files := xml_files w; snapshots := snaps;
            databases :=
              <[url := <["posts_tags" := table_after k 2 db.posts_tags_def posts_tags]>
                        (<["tags" := table_after k 1 db.tags_def tags]>
                          (<["posts" := table_after k 0 db.posts_def posts]> audited))]>
                (databases w);
            log := log w ++ events_to_gate path ++ map SqlExecuted entity_ddl
                   ++ events_of_loads (S k) |})
    end.
Proof using All.
  intros posts tags report url snaps audited.
  unfold main.
  step SparkClient_init_run.
  step Posts_init_run; [|exact Hposts].
  step Tags_init_run; [|exact Htags].
  erewrite bind_inr; [|rewrite PostsTags_init_run, Hjoin; reflexivity].
  unfold sparkclient.Posts_save, sparkclient.Tags_save, sparkclient.PostsTags_save.
  step write_parquet_run. step write_parquet_run. step write_parquet_run.
  unfold sparkclient.Posts_check, sparkclient.Tags_check, sparkclient.PostsTags_check.
  step run_check_run. step run_check_run. step run_check_run.
  cbv zeta.
  fold posts tags. fold (aggregated_report verify posts tags posts_tags).
  fold report. fold (gate_fails report). fold url.
  erewrite bind_inr.
  2: { rewrite Database_init_run.
       rewrite (can_open_beside path "warehouse.db" ("posts_tags" +:+ ".parquet") posts_tags);
         [reflexivity | by cbn [snapshots]; rewrite lookup_insert_eq | reflexivity]. }
  norm. rewrite tables_of_same.
  erewrite bind_inr; [|rewrite to_sql_run, store_frame_replace; reflexivity].
  tidy. fold audited. fold snaps.
  destruct (gate_fails report).
  - step stop_run. tidy. reflexivity.
  - unfold db.Posts_create, db.Tags_create, db.PostsTags_create.
    step create_run. tidy.
    step create_run. tidy.
    step create_run. tidy.
    change (table_name db.posts_def) with "posts".
    change (table_name db.tags_def) with "tags".
    change (table_name db.posts_tags_def) with "posts_tags".
    unfold entity_loads. cbn [first_refused]. fold (created db.posts_def).
    fold (created db.tags_def). fold (created db.posts_tags_def).
    destruct (refuses (created db.posts_def) posts) as [what|] eqn:H1.
    { erewrite bind_inl;
        [|apply (append_refused refuses _ _ _ what (created db.posts_def));
          [rewrite tables_of_insert;
           by repeat (rewrite lookup_insert_eq || rewrite lookup_insert_ne by done)
          |exact H1]].
      tidy. reflexivity. }
    erewrite bind_inr;
      [|apply (append_run refuses _ _ _ (created db.posts_def));
        [rewrite tables_of_insert;
         by repeat (rewrite lookup_insert_eq || rewrite lookup_insert_ne by done)
        |exact H1]].
    tidy. rewrite loaded_one.
    destruct (refuses (created db.tags_def) tags) as [what|] eqn:H2.
    { erewrite bind_inl;
        [|apply (append_refused refuses _ _ _ what (created db.tags_def));
          [rewrite tables_of_insert;
           by repeat (rewrite lookup_insert_eq || rewrite lookup_insert_ne by done)
          |exact H2]].
      tidy. reflexivity. }
    erewrite bind_inr;
      [|apply (append_run refuses _ _ _ (created db.tags_def));
        [rewrite tables_of_insert;
         by repeat (rewrite lookup_insert_eq || rewrite lookup_insert_ne by done)
        |exact H2]].
    tidy. rewrite loaded_two.
    destruct (refuses (created db.posts_tags_def) posts_tags) as [what|] eqn:H3.
    { erewrite bind_inl;
        [|apply (append_refused refuses _ _ _ what (created db.posts_tags_def));
          [rewrite tables_of_insert;
           by repeat (rewrite lookup_insert_eq || rewrite lookup_insert_ne by done)
          |exact H3]].
      tidy. reflexivity. }
    erewrite bind_inr;
      [|apply (append_run refuses _ _ _ (created db.posts_tags_def));
        [rewrite tables_of_insert;
         by repeat (rewrite lookup_insert_eq || rewrite lookup_insert_ne by done)
        |exact H3]].
    tidy.
    step stop_run. unfold print, emit. tidy.
    reflexivity.
Qed.
End Run.

(** ** Claims about the run *)

Lemma first_refused_position (refuses : SqlTable → DataFrame → option string)
    (posts tags posts_tags : DataFrame) (k : nat) (what : string) :
  first_refused refuses (entity_loads posts tags posts_tags) = Some (k, what) →
  k = 0%nat ∨ k = 1%nat ∨ k = 2%nat.
Proof.
  unfold entity_loads. cbn [first_refused].
  destruct (refuses (created db.posts_def) posts); [intros [= <- _]; by left|].
  destruct (refuses (created db.tags_def) tags); [intros [= <- _]; right; by left|].
  destruct (refuses (created db.posts_tags_def) posts_tags); [intros [= <- _]; by do 2 right|].
  discriminate.
Qed.

Lemma verdict (report : list ReportRow) : some_failed report ∨ all_succeeded report.
Proof.
  destruct (gate_fails report) eqn:Hg.
  - left. by apply gate_fails_true.
  - right. by apply gate_fails_false.
Qed.

Lemma verdicts_exclusive (report : list ReportRow) :
  some_failed report → all_succeeded report → False.
Proof.
  intros Hf%gate_fails_true Hs%gate_fails_false. congruence.
Qed.

(** The outcome of a run that got past loading: aborted by the gate,
    committed, or stopped by the store at the first load it refuses. *)
Lemma main_outcome (verify : Check → DataFrame → list ReportRow)
    (refuses : SqlTable → DataFrame → option string) (path : string)
    (w : World) (posts tags posts_tags : DataFrame) :
  tables_of_run path w posts tags posts_tags →
  let report := aggregated_report verify posts tags posts_tags in
  let snaps :=
    <[snapshot_url path "posts_tags" := posts_tags]>
      (<[snapshot_url path "tags" := tags]>
        (<[snapshot_url path "posts" := posts]> (snapshots w))) in
  let audited := <["check_results" := persisted None (report_frame report)]> (warehouse path w) in
  (some_failed report ∧
   main verify refuses path w =
   (inl (SystemExit exit_message),
    {| xml_files := xml_files w; snapshots := snaps;
       databases := <[warehouse_url path := audited]> (databases w);
       log := log w ++ events_to_gate path ++ [SparkSessionStopped] |})) ∨
  (all_succeeded report ∧
   first_refused refuses (entity_loads posts tags posts_tags) = None ∧
   main verify refuses path w =
   (inr tt,
    {| xml_files := xml_files w; snapshots := snaps;
       databases :=
         <[warehouse_url path :=
             <["posts_tags" := persisted (Some db.posts_tags_def) posts_tags]>
               (<["tags" := persisted (Some db.tags_def) tags]>
                 (<["posts" := persisted (Some db.posts_def) posts]> audited))]>
           (databases w);
       log := log w ++ events_to_gate path ++ events_of_commit |})) ∨
  (all_succeeded report ∧
   ∃ (k : nat) (what : string),
     first_refused refuses (entity_loads posts tags posts_tags) = Some (k, what) ∧
     (k = 0%nat ∨ k = 1%nat ∨ k = 2%nat) ∧
     main verify refuses path w =
     (inl (DatabaseError what),
      {| xml_files := xml_files w; snapshots := snaps;
         databases :=
           <[warehouse_url path :=
               <["posts_tags" := table_after k 2 db.posts_tags_def posts_tags]>
                 (<["tags" := table_after k 1 db.tags_def tags]>
                   (<["posts" := table_after k 0 db.posts_def posts]> audited))]>
             (databases w);
         log := log w ++ events_to_gate path ++ map SqlExecuted entity_ddl
                ++ events_of_loads (S k) |})).
Proof.
  intros (lp & lt & Hp & Ht & -> & -> & Hj).
  pose proof (main_run verify refuses path w lp lt posts_tags Hp Ht Hj) as Hrun.
  cbv zeta in Hrun |- *.
  destruct (gate_fails _) eqn:Hg.
  - left. split; [by apply gate_fails_true | exact Hrun].
  - right. apply gate_fails_false in Hg.
    destruct (first_refused _ _) as [[k what]|] eqn:Hk.
    + right. split; [exact Hg|]. exists k, what. split; [reflexivity|].
      split; [exact (first_refused_position _ _ _ _ _ _ Hk) | exact Hrun].
    + left. by split.
Qed.

Lemma warehouse_insert (path : string) (st : gmap string SqlTable)
    (d : gmap string (gmap string SqlTable)) (x s : gmap string DataFrame) (l : list Event) :
  warehouse path {| xml_files := x; snapshots := s;
                    databases := <[warehouse_url path := st]> d; log := l |} = st.
Proof. apply tables_of_insert. Qed.

Lemma audit_table_not_entity : "check_results" ∉ entity_tables.
Proof. apply (bool_decide_unpack _). by vm_compute. Qed.




(** A run that fails while loading or deriving touches neither the
    snapshots nor the store. *)
Lemma main_stops_early (verify : Check → DataFrame → list ReportRow)
    (refuses : SqlTable → DataFrame → option string) (path : string) (w : World) :
  (∀ posts tags posts_tags, ¬ tables_of_run path w posts tags posts_tags) →
  ∃ (e : Exn) (evs : list Event),
    main verify refuses path w =
      (inl e, {| xml_files := xml_files w; snapshots := snapshots w;
                 databases := databases w; log := log w ++ evs |}) ∧
    tables_loaded evs = [] ∧ statements_executed evs = [] ∧
    snapshots_written evs = [] ∧ verifications_run evs = [].
Proof.
  intros Hno. unfold main. step SparkClient_init_run.
  destruct (xml_files w !! (path +:+ os_sep +:+ "Posts.xml")) as [lp|] eqn:Hp.
  2: { erewrite bind_inl; [|by apply Posts_init_fails]. tidy. by eexists _, _. }
  step Posts_init_run; [|exact Hp].
  destruct (xml_files w !! (path +:+ os_sep +:+ "Tags.xml")) as [lt|] eqn:Ht.
  2: { erewrite bind_inl; [|by apply Tags_init_fails]. tidy. by eexists _, _. }
  step Tags_init_run; [|exact Ht].
  destruct (PostsTags_df (strip_prefix lp) (strip_prefix lt)) as [pt|] eqn:Hj.
  { destruct (Hno (strip_prefix lp) (strip_prefix lt) pt). by exists lp, lt. }
  erewrite bind_inl; [|rewrite PostsTags_init_run, Hj; reflexivity].
  tidy. by eexists _, _.
Qed.

Lemma run_or_not (path : string) (w : World) :
  (∃ posts tags posts_tags, tables_of_run path w posts tags posts_tags) ∨
  (∀ posts tags posts_tags, ¬ tables_of_run path w posts tags posts_tags).
Proof.
  unfold tables_of_run.
  destruct (xml_files w !! (path +:+ os_sep +:+ "Posts.xml")) as [lp|] eqn:Hp;
    [|right; by intros ??? (? & ? & ? & _)].
  destruct (xml_files w !! (path +:+ os_sep +:+ "Tags.xml")) as [lt|] eqn:Ht;
    [|right; by intros ??? (? & ? & _ & ? & _)].
  destruct (PostsTags_df (strip_prefix lp) (strip_prefix lt)) as [pt|] eqn:Hj.
  - left. by exists (strip_prefix lp), (strip_prefix lt), pt, lp, lt.
  - right. intros ??? (? & ? & [= <-] & [= <-] & -> & -> & H). congruence.
Qed.

Lemma tables_of_run_unique (path : string) (w : World)
    (posts tags posts_tags posts' tags' posts_tags' : DataFrame) :
  tables_of_run path w posts tags posts_tags →
  tables_of_run path w posts' tags' posts_tags' →
  posts' = posts ∧ tags' = tags ∧ posts_tags' = posts_tags.
Proof.
  intros (lp & lt & Hp & Ht & -> & -> & Hj) (lp' & lt' & Hp' & Ht' & -> & -> & Hj').
  rewrite Hp in Hp'. rewrite Ht in Ht'. injection Hp' as <-. injection Ht' as <-.
  rewrite Hj in Hj'. by injection Hj' as <-.
Qed.


Lemma statements_executed_app (l1 l2 : list Event) :
  statements_executed (l1 ++ l2) = statements_executed l1 ++ statements_executed l2.
Proof. apply flat_map_app. Qed.

Lemma statements_executed_ddl (l : list Statement) :
  statements_executed (map SqlExecuted l) = l.
Proof. induction l as [|s l IH]; [done|]. simpl. by rewrite IH. Qed.

Lemma snapshot_url_ne (path a b : string) :
  a +:+ ".parquet" ≠ b +:+ ".parquet" → snapshot_url path a ≠ snapshot_url path b.
Proof. intros Hne H. by apply Hne, (snapshot_url_inj path). Qed.

(** Claim C8 (schema recreation timing), as the code has it.  On a run that
    reaches the gate, the audit table [check_results] is replaced by the
    report, which is what pandas' [replace] does: it drops the table and
    creates it from the frame.  If some row of the report has a status
    other than [Success], no statement at all is sent through
    [Database.execute], so that none of [posts], [tags] and [posts_tags]
    is dropped or created, and the entity tables are what they were; if
    every row says
    [Success], the six statements that drop and create [posts], [tags]
    and [posts_tags] are executed, in this order and once, after the
    snapshots are written, the three checks evaluated and the audit table
    loaded, and before the entity tables are loaded, each into the table
    just created under its declared schema: [posts] first, then [tags],
    then [posts_tags], up to the first load the store refuses, all three
    when it takes them. *)
Theorem schema_recreation_after_gate (verify : Check → DataFrame → list ReportRow)
    (refuses : SqlTable → DataFrame → option string)
    (path : string) (w : World) (posts tags posts_tags : DataFrame) :
  tables_of_run path w posts tags posts_tags →
  let report := aggregated_report verify posts tags posts_tags in
  ∃ (result : Exn + unit) (w' : World) (evs : list Event),
    main verify refuses path w = (result, w') ∧
    log w' = log w ++ evs ∧
    warehouse path w' !! "check_results" = Some (persisted None (report_frame report)) ∧
    (some_failed report →
       statements_executed evs = [] ∧
       ∀ t : string, t ∈ entity_tables → warehouse path w' !! t = warehouse path w !! t) ∧
    (all_succeeded report →
       ∃ before after : list Event,
         evs = before ++ map SqlExecuted entity_ddl ++ after ∧
         statements_executed before = [] ∧
         length (snapshots_written before) = 3%nat ∧
         verifications_run before = ["Posts Check"; "Tags Check"; "Posts Tags Check"] ∧
         tables_loaded before = ["check_results"] ∧
         statements_executed after = [] ∧
         (first_refused refuses (entity_loads posts tags posts_tags) = None →
          tables_loaded after = entity_tables) ∧
         (∀ (k : nat) (what : string),
            first_refused refuses (entity_loads posts tags posts_tags) = Some (k, what) →
            tables_loaded after = take (S k) entity_tables) ∧
         declared <$> warehouse path w' !! "posts" = Some (Some db.posts_def) ∧
         declared <$> warehouse path w' !! "tags" = Some (Some db.tags_def) ∧
         declared <$> warehouse path w' !! "posts_tags" = Some (Some db.posts_tags_def)).
Proof.
  intros Hrun report.
  destruct (main_outcome verify refuses path w posts tags posts_tags Hrun)
    as [[Hv Hmain]|[(Hv & Hnone & Hmain)|(Hv & k & what & Hsome & Hk & Hmain)]];
    fold report in Hv, Hmain.
  - eexists _, _, _. split; [exact Hmain|]. cbn [log]. split; [reflexivity|].
    rewrite warehouse_insert. split; [apply lookup_insert_eq|]. split.
    + intros _. split; [done|].
      intros t Ht. rewrite lookup_insert_ne; [done|].
      intros <-. by apply audit_table_not_entity.
    + intros Hs. destruct (verdicts_exclusive report Hv Hs).
  - eexists _, _, _. split; [exact Hmain|]. cbn [log]. split; [reflexivity|].
    rewrite warehouse_insert. split.
    { by repeat (rewrite lookup_insert_eq || rewrite lookup_insert_ne by done). }
    split.
    + intros Hf. destruct (verdicts_exclusive report Hf Hv).
    + intros _. exists (events_to_gate path), (drop 6 events_of_commit).
      split_and!; try done;
        try by repeat (rewrite lookup_insert_eq || rewrite lookup_insert_ne by done).
      intros k what Hsome. rewrite Hnone in Hsome. discriminate Hsome.
  - eexists _, _, _. split; [exact Hmain|]. cbn [log]. split; [reflexivity|].
    rewrite warehouse_insert. split.
    { by repeat (rewrite lookup_insert_eq || rewrite lookup_insert_ne by done). }
    split.
    + intros Hf. destruct (verdicts_exclusive report Hf Hv).
    + intros _. exists (events_to_gate path), (events_of_loads (S k)).
      split; [reflexivity|].
      split; [reflexivity|]. split; [reflexivity|]. split; [reflexivity|].
      split; [reflexivity|].
      split; [by destruct Hk as [-> | [-> | ->]]|].
      split; [intros Hnone; rewrite Hnone in Hsome; discriminate Hsome|].
      split.
      { intros k' what' Hsome'. rewrite Hsome in Hsome'. injection Hsome' as <- <-.
        by destruct Hk as [-> | [-> | ->]]. }
      destruct Hk as [-> | [-> | ->]]; split_and!;
        by repeat (rewrite lookup_insert_eq || rewrite lookup_insert_ne by done).
Qed.

(** Claim C10 (snapshot writes precede validation).  On a run that reaches the
    gate, whatever its verdict: the three snapshots are written, in mode
    [overwrite], before any check is evaluated and before the store is
    touched; at the end of the run each of the three paths holds the table
    of this run, whatever it held before; and this is so on an aborted
    run too, on which the entity tables of the store are nevertheless what
    they were. *)
Theorem snapshots_precede_validation (verify : Check → DataFrame → list ReportRow)
    (refuses : SqlTable → DataFrame → option string)
    (path : string) (w : World) (posts tags posts_tags : DataFrame) :
  tables_of_run path w posts tags posts_tags →
  let report := aggregated_report verify posts tags posts_tags in
  ∃ (result : Exn + unit) (w' : World) (before after : list Event),
    main verify refuses path w = (result, w') ∧
    log w' = log w ++ before ++ after ∧
    snapshots_written before =
      [("overwrite", snapshot_url path "posts"); ("overwrite", snapshot_url path "tags");
       ("overwrite", snapshot_url path "posts_tags")] ∧
    verifications_run before = [] ∧
    tables_loaded before = [] ∧
    statements_executed before = [] ∧
    snapshots_written after = [] ∧
    verifications_run after = ["Posts Check"; "Tags Check"; "Posts Tags Check"] ∧
    snapshots w' !! snapshot_url path "posts" = Some posts ∧
    snapshots w' !! snapshot_url path "tags" = Some tags ∧
    snapshots w' !! snapshot_url path "posts_tags" = Some posts_tags ∧
    (some_failed report →
       result = inl (SystemExit exit_message) ∧
       ∀ t : string, t ∈ entity_tables → warehouse path w' !! t = warehouse path w !! t).
Proof.
  intros Hrun report.
  assert (Hsnap : ∀ S : gmap string DataFrame,
    let snaps := <[snapshot_url path "posts_tags" := posts_tags]>
                   (<[snapshot_url path "tags" := tags]>
                     (<[snapshot_url path "posts" := posts]> S)) in
    snaps !! snapshot_url path "posts" = Some posts ∧
    snaps !! snapshot_url path "tags" = Some tags ∧
    snaps !! snapshot_url path "posts_tags" = Some posts_tags).
  { intros S. cbv zeta. split_and!.
    - rewrite !lookup_insert_ne by (by apply snapshot_url_ne). apply lookup_insert_eq.
    - rewrite lookup_insert_ne by (by apply snapshot_url_ne). apply lookup_insert_eq.
    - apply lookup_insert_eq. }
  destruct (Hsnap (snapshots w)) as (Hs1 & Hs2 & Hs3).
  destruct (main_outcome verify refuses path w posts tags posts_tags Hrun)
    as [[Hv Hmain]|[(Hv & Hnone & Hmain)|(Hv & k & what & Hsome & Hk & Hmain)]];
    fold report in Hv, Hmain.
  - exists (inl (SystemExit exit_message)). eexists.
    exists (take 6 (events_to_gate path)), (drop 6 (events_to_gate path) ++ [SparkSessionStopped]).
    split; [exact Hmain|]. cbn [log snapshots]. split_and!; try done.
    intros _. split; [done|]. rewrite warehouse_insert.
    intros t Ht. rewrite lookup_insert_ne; [done|].
    intros <-. by apply audit_table_not_entity.
  - exists (inr tt). eexists.
    exists (take 6 (events_to_gate path)), (drop 6 (events_to_gate path) ++ events_of_commit).
    split; [exact Hmain|]. cbn [log snapshots]. split_and!; try done.
    intros Hf. destruct (verdicts_exclusive report Hf Hv).
  - exists (inl (DatabaseError what)). eexists.
    exists (take 6 (events_to_gate path)),
           (drop 6 (events_to_gate path) ++ map SqlExecuted entity_ddl ++ events_of_loads (S k)).
    split; [exact Hmain|]. cbn [log snapshots].
    split; [reflexivity|]. split; [reflexivity|]. split; [reflexivity|].
    split; [reflexivity|]. split; [reflexivity|].
    split; [by destruct Hk as [-> | [-> | ->]]|].
    split; [by destruct Hk as [-> | [-> | ->]]|].
    split; [exact Hs1|]. split; [exact Hs2|]. split; [exact Hs3|].
    intros Hf. destruct (verdicts_exclusive report Hf Hv).
Qed.

(** ** The claims at the examples *)





Lemma schema_recreation_after_gate_witness :
  ∃ (result : Exn + unit) (w' : World) (evs : list Event),
    main no_findings constrained "data" ex_full = (result, w') ∧
    log w' = log ex_full ++ evs ∧
    statements_executed evs = entity_ddl ∧
    declared <$> warehouse "data" w' !! "posts" = Some (Some db.posts_def).
Proof.
  destruct (schema_recreation_after_gate no_findings constrained "data" ex_full
              ex_full_posts ex_full_tags ex_posts_tags)
    as (result & w' & evs & Hmain & Hlog & _ & _ & Hpass).
  { exists ex_full_posts_xml, ex_full_tags_xml. vm_compute. repeat split. }
  destruct Hpass as (before & after & Hevs & Hb & _ & _ & _ & Ha & _ & _ & Hd & _).
  { apply gate_fails_false. vm_compute. reflexivity. }
  exists result, w', evs.
  split; [exact Hmain|]. split; [exact Hlog|]. split; [|exact Hd].
  rewrite Hevs, !statements_executed_app, statements_executed_ddl, Hb, Ha.
  apply app_nil_r.
Defined.

(** Claim C8 fails as stated: the run of the example ends aborted without
    having sent a single statement through [Database.execute], its
    [posts] table being the one of the earlier load. *)
Lemma schema_recreation_counterexample :
  (main run constrained "data" ex_world).1 = inl (SystemExit exit_message) ∧
  statements_executed (log (main run constrained "data" ex_world).2) = [] ∧
  warehouse "data" (main run constrained "data" ex_world).2 !! "posts" =
    warehouse "data" ex_world !! "posts" ∧
  ¬ recreates_schema_first (log (main run constrained "data" ex_world).2).
Proof.
  assert (Hnone : statements_executed (log (main run constrained "data" ex_world).2) = []).
  { vm_compute. reflexivity. }
  split; [vm_compute; reflexivity|].
  split; [exact Hnone|].
  split; [vm_compute; reflexivity|].
  intros (before & after & Hevs & _). rewrite Hevs in Hnone.
  rewrite !statements_executed_app, statements_executed_ddl in Hnone.
  apply app_eq_nil in Hnone as [_ Hnone]. discriminate Hnone.
Qed.

Lemma snapshots_precede_validation_witness :
  ∃ (result : Exn + unit) (w' : World),
    main run constrained "data" ex_world = (result, w') ∧
    result = inl (SystemExit exit_message) ∧
    snapshots w' !! snapshot_url "data" "posts" = Some ex_posts ∧
    snapshots ex_world !! snapshot_url "data" "posts" = Some (mkDataFrame ["Id"] []).
Proof.
  destruct (snapshots_precede_validation run constrained "data" ex_world
              ex_posts ex_tags ex_posts_tags)
    as (result & w' & before & after & Hmain & _ & _ & _ & _ & _ & _ & _ & Hs & _ & _ & Hfail).
  { exists ex_posts_xml, ex_tags_xml. vm_compute. repeat split. }
  destruct Hfail as [Hres _].
  { apply gate_fails_true. vm_compute. reflexivity. }
  exists result, w'.
  split; [exact Hmain|]. split; [exact Hres|]. split; [exact Hs|].
  vm_compute. reflexivity.
Defined.

(** * Further properties *)

(** ** Further properties of the containment join *)

Lemma flat_map_length_le {A B : Type} (f : A → list B) (l : list A) (n : nat) :
  (∀ a, length (f a) ≤ n)%nat → (length (flat_map f l) ≤ length l * n)%nat.
Proof.
  intros Hf. induction l as [|a l IH]; simpl; [lia|].
  rewrite length_app. specialize (Hf a). lia.
Qed.

Lemma joined_length (pId pTags tId tName : nat) (p t : Row) :
  (length (joined pId pTags tId tName p t) ≤ 1)%nat.
Proof. unfold joined. destruct (join_condition _ _) as [[|]|]; simpl; lia. Qed.

(** The derived table has at most one row per pair of a post and a tag;
    with no post or no tag it has no row. *)
Theorem association_size_bound (posts_df tags_df pt : DataFrame) :
  PostsTags_df posts_df tags_df = Some pt →
  (length (rows pt) ≤ length (rows posts_df) * length (rows tags_df))%nat ∧
  (rows posts_df = [] ∨ rows tags_df = [] → rows pt = []).
Proof.
  intros H.
  apply PostsTags_df_inv in H as (pId & pTags & tId & tName & _ & _ & _ & _ & ->).
  cbn [rows].
  assert (Hle : (length (join_rows pId pTags tId tName (rows posts_df) (rows tags_df))
                 ≤ length (rows posts_df) * length (rows tags_df))%nat).
  { unfold join_rows. apply flat_map_length_le. intros p.
    pose proof (flat_map_length_le (joined pId pTags tId tName p) (rows tags_df) 1
                  (joined_length pId pTags tId tName p)). lia. }
  split; [exact Hle|].
  intros Hempty. apply length_zero_iff_nil.
  destruct Hempty as [Hp|Ht]; [rewrite Hp in Hle |- * | rewrite Ht in Hle |- *];
    cbn [length] in Hle; lia.
Qed.

Lemma association_size_bound_witness :
  (length (rows ex_posts_tags) ≤ length (rows ex_posts) * length (rows ex_tags))%nat ∧
  (rows ex_posts = [] ∨ rows ex_tags = [] → rows ex_posts_tags = []).
Proof.
  apply (association_size_bound ex_posts ex_tags ex_posts_tags). reflexivity.
Defined.

Lemma flat_map_app_pointwise {A B : Type} (f g : A → list B) (l : list A) :
  flat_map (λ a, f a ++ g a) l ≡ₚ flat_map f l ++ flat_map g l.
Proof.
  induction l as [|a l IH]; simpl; [done|].
  rewrite IH, <- !app_assoc. f_equiv.
  rewrite !app_assoc. f_equiv. apply Permutation_app_comm.
Qed.

Lemma flat_map_pointwise {A B : Type} (f g : A → list B) (l : list A) :
  (∀ a, f a ≡ₚ g a) → flat_map f l ≡ₚ flat_map g l.
Proof.
  intros Hfg. induction l as [|a l IH]; simpl; [done|]. by rewrite (Hfg a), IH.
Qed.

(** The association table can be derived batch by batch, and the order of
    the input rows does not matter to what it holds: when the posts, or
    the tags, are dealt into two batches, in any order, the tables derived
    from the two batches hold together the rows of the table derived from
    all of them, each as many times. *)
Theorem association_by_batches (posts_df tags_df pt : DataFrame)
    (batch1 batch2 : list Row) :
  PostsTags_df posts_df tags_df = Some pt →
  (rows posts_df ≡ₚ batch1 ++ batch2 →
   ∃ pt1 pt2 : DataFrame,
     PostsTags_df (with_rows posts_df batch1) tags_df = Some pt1 ∧
     PostsTags_df (with_rows posts_df batch2) tags_df = Some pt2 ∧
     columns pt1 = columns pt ∧ columns pt2 = columns pt ∧
     rows pt ≡ₚ rows pt1 ++ rows pt2) ∧
  (rows tags_df ≡ₚ batch1 ++ batch2 →
   ∃ pt1 pt2 : DataFrame,
     PostsTags_df posts_df (with_rows tags_df batch1) = Some pt1 ∧
     PostsTags_df posts_df (with_rows tags_df batch2) = Some pt2 ∧
     columns pt1 = columns pt ∧ columns pt2 = columns pt ∧
     rows pt ≡ₚ rows pt1 ++ rows pt2).
Proof.
  intros H.
  apply PostsTags_df_inv in H as (i & j & k & l & Hi & Hj & Hk & Hl & ->).
  split; intros Hrows.
  - exists {| columns := ["PostId"; "TagId"; "TagName"];
              rows := join_rows i j k l batch1 (rows tags_df) |},
           {| columns := ["PostId"; "TagId"; "TagName"];
              rows := join_rows i j k l batch2 (rows tags_df) |}.
    unfold PostsTags_df, with_rows. cbn [columns rows].
    rewrite Hj, Hl, Hi, Hk. simpl. split_and!; try done.
    unfold join_rows. rewrite <- flat_map_app.
    by apply Permutation_flat_map.
  - exists {| columns := ["PostId"; "TagId"; "TagName"];
              rows := join_rows i j k l (rows posts_df) batch1 |},
           {| columns := ["PostId"; "TagId"; "TagName"];
              rows := join_rows i j k l (rows posts_df) batch2 |}.
    unfold PostsTags_df, with_rows. cbn [columns rows].
    rewrite Hj, Hl, Hi, Hk. simpl. split_and!; try done.
    unfold join_rows.
    rewrite <- flat_map_app_pointwise.
    apply flat_map_pointwise. intros p.
    rewrite <- flat_map_app. by apply Permutation_flat_map.
Qed.

Lemma association_by_batches_witness :
  ∃ pt1 pt2 : DataFrame,
    PostsTags_df (with_rows ex_posts [[VLong 3; VNull]; [VLong 1; VStr "<a><b>"]]) ex_tags
      = Some pt1 ∧
    PostsTags_df (with_rows ex_posts [[VLong 4; VStr EmptyString]; [VLong 2; VStr "<ab>"]])
      ex_tags = Some pt2 ∧
    columns pt1 = columns ex_posts_tags ∧ columns pt2 = columns ex_posts_tags ∧
    rows ex_posts_tags ≡ₚ rows pt1 ++ rows pt2.
Proof.
  destruct (association_by_batches ex_posts ex_tags ex_posts_tags
              [[VLong 3; VNull]; [VLong 1; VStr "<a><b>"]]
              [[VLong 4; VStr EmptyString]; [VLong 2; VStr "<ab>"]])
    as [Hposts _]; [reflexivity|].
  apply Hposts. cbn [rows ex_posts app].
  apply (perm_trans (l' := [[VLong 1; VStr "<a><b>"]; [VLong 3; VNull];
                            [VLong 2; VStr "<ab>"]; [VLong 4; VStr EmptyString]]));
    [apply perm_skip, perm_swap|].
  apply (perm_trans (l' := [[VLong 3; VNull]; [VLong 1; VStr "<a><b>"];
                            [VLong 2; VStr "<ab>"]; [VLong 4; VStr EmptyString]]));
    [apply perm_swap|].
  do 2 apply perm_skip. apply perm_swap.
Defined.

Lemma resolve_TagName : resolve ["PostId"; "TagId"; "TagName"] "TagName" = Some 2%nat.
Proof. reflexivity. Qed.

(** Every row of the derived table has one cell for each of its three
    columns, which are the columns [db.py] declares for [posts_tags], in
    the same order; and its [TagName] is never null, whatever the input. *)
Theorem association_rows_well_formed (posts_df tags_df pt : DataFrame) (r : Row) :
  PostsTags_df posts_df tags_df = Some pt →
  r ∈ rows pt →
  columns pt = map col_name (table_columns db.posts_tags_def) ∧
  length r = length (columns pt) ∧
  field pt "TagName" r ≠ VNull.
Proof.
  intros H Hr.
  apply PostsTags_df_inv in H as (pId & pTags & tId & tName & HpId & HpTags & HtId & HtName & ->).
  cbn [rows] in Hr.
  apply (elem_of_join_rows posts_df tags_df pId pTags tId tName HpId HpTags HtId HtName) in Hr
    as (p & t & _ & _ & Htag & ->).
  split; [reflexivity|]. split; [reflexivity|].
  unfold field. cbn [columns]. rewrite resolve_TagName.
  unfold association_row, cell. simpl.
  destruct Htag as (s & name & _ & Hname & _).
  intros Hnull. by rewrite Hnull in Hname.
Qed.

Lemma association_rows_well_formed_witness :
  columns ex_posts_tags = map col_name (table_columns db.posts_tags_def) ∧
  length [VLong 1; VLong 10; VStr "a"] = length (columns ex_posts_tags) ∧
  field ex_posts_tags "TagName" [VLong 1; VLong 10; VStr "a"] ≠ VNull.
Proof.
  apply (association_rows_well_formed ex_posts ex_tags ex_posts_tags); [reflexivity|].
  apply (bool_decide_unpack _). vm_compute. exact I.
Defined.

Lemma joined_matches (posts_df tags_df : DataFrame) (pId pTags tId tName : nat) (p t : Row) :
  resolve (columns posts_df) "Id" = Some pId →
  resolve (columns posts_df) "Tags" = Some pTags →
  resolve (columns tags_df) "Id" = Some tId →
  resolve (columns tags_df) "TagName" = Some tName →
  joined pId pTags tId tName p t =
  map (λ pair, association_row posts_df tags_df pair.1 pair.2)
      (List.filter (matches posts_df tags_df) [(p, t)]).
Proof.
  intros HpId HpTags HtId HtName.
  unfold joined, matches, field. cbn [List.filter fst snd]. rewrite HpTags, HtName.
  rewrite (select_row_fields posts_df tags_df pId tId tName HpId HtId HtName).
  destruct (join_condition _ _) as [[|]|]; by case_bool_decide.
Qed.

(** The derived table holds the selection, among all the pairs of a post
    and a tag, of those that meet the join condition, each pair giving its
    row (p.Id, t.Id, t.TagName): a pair that occurs several times gives
    its row as many times, nothing is deduplicated. *)
Theorem association_is_filtered_product (posts_df tags_df pt : DataFrame) :
  PostsTags_df posts_df tags_df = Some pt →
  rows pt ≡ₚ map (λ pair, association_row posts_df tags_df pair.1 pair.2)
                 (List.filter (matches posts_df tags_df) (pairs posts_df tags_df)) ∧
  length (rows pt) =
    length (List.filter (matches posts_df tags_df) (pairs posts_df tags_df)).
Proof.
  intros H.
  apply PostsTags_df_inv in H as (pId & pTags & tId & tName & HpId & HpTags & HtId & HtName & ->).
  cbn [rows].
  assert (Hrows : join_rows pId pTags tId tName (rows posts_df) (rows tags_df) =
    map (λ pair, association_row posts_df tags_df pair.1 pair.2)
        (List.filter (matches posts_df tags_df) (pairs posts_df tags_df))).
  { unfold join_rows, pairs.
    assert (Hinner : ∀ p : Row,
      flat_map (joined pId pTags tId tName p) (rows tags_df) =
      map (λ pair, association_row posts_df tags_df pair.1 pair.2)
          (List.filter (matches posts_df tags_df) (map (λ t, (p, t)) (rows tags_df)))).
    { intros p. induction (rows tags_df) as [|t ts IHt]; [done|].
      cbn [flat_map map]. rewrite IHt.
      rewrite (joined_matches posts_df tags_df pId pTags tId tName p t HpId HpTags HtId HtName).
      by rewrite <- map_app, <- List.filter_app. }
    induction (rows posts_df) as [|p ps IHp]; [done|].
    cbn [flat_map]. by rewrite List.filter_app, map_app, <- IHp, Hinner. }
  split; [by rewrite Hrows|]. by rewrite Hrows, length_map.
Qed.

Lemma association_is_filtered_product_witness :
  rows ex_posts_tags ≡ₚ
    map (λ pair, association_row ex_posts ex_tags pair.1 pair.2)
        (List.filter (matches ex_posts ex_tags) (pairs ex_posts ex_tags)) ∧
  length (rows ex_posts_tags) =
    length (List.filter (matches ex_posts ex_tags) (pairs ex_posts ex_tags)).
Proof.
  apply (association_is_filtered_product ex_posts ex_tags ex_posts_tags). reflexivity.
Defined.

(** ** Further properties of the reader and of the snapshots *)

Lemma length_append (a s : string) :
  String.length (a +:+ s) = (String.length a + String.length s)%nat.
Proof. induction a as [|c a IH]; [done|]. rewrite append_String. simpl. by rewrite IH. Qed.

Lemma append_inj_r (a b s : string) : a +:+ s = b +:+ s → a = b.
Proof.
  revert b. induction a as [|c a IH]; intros [|d b] H.
  - done.
  - apply (f_equal String.length) in H.
    rewrite append_String, append_Empty in H. simpl in H.
    rewrite length_append in H. lia.
  - apply (f_equal String.length) in H.
    rewrite append_String, append_Empty in H. simpl in H.
    rewrite length_append in H. lia.
  - rewrite !append_String in H. injection H as -> H. f_equal. by apply IH.
Qed.

Lemma snapshot_url_names (path a b : string) :
  a ≠ b → snapshot_url path a ≠ snapshot_url path b.
Proof.
  intros Hne. apply snapshot_url_ne. intros H. by apply Hne, (append_inj_r _ _ ".parquet").
Qed.

(** When one of the two input files cannot be read, the run ends with the
    reader's error for the first file that cannot, [Posts.xml] before
    [Tags.xml]; nothing has been written by then, neither a snapshot nor
    the store, not even an empty database file, no check has been
    evaluated, and the Spark session is left running. *)
Theorem main_unreadable_input (verify : Check → DataFrame → list ReportRow)
    (refuses : SqlTable → DataFrame → option string) (path : string) (w : World) :
  xml_files w !! posts_xml path = None ∨ xml_files w !! tags_xml path = None →
  ∃ (url : string) (w' : World) (evs : list Event),
    main verify refuses path w = (inl (XmlError url), w') ∧
    (url = posts_xml path ∨
     url = tags_xml path ∧ is_Some (xml_files w !! posts_xml path)) ∧
    xml_files w !! url = None ∧
    xml_files w' = xml_files w ∧
    snapshots w' = snapshots w ∧
    databases w' = databases w ∧
    log w' = log w ++ evs ∧
    snapshots_written evs = [] ∧
    verifications_run evs = [] ∧
    tables_loaded evs = [] ∧
    sessions_stopped evs = 0%nat.
Proof.
  intros Hmissing. unfold main. step SparkClient_init_run.
  destruct (xml_files w !! posts_xml path) as [lp|] eqn:Hp.
  - destruct Hmissing as [?|Ht]; [done|].
    step Posts_init_run; [|exact Hp].
    erewrite bind_inl; [|by apply Tags_init_fails]. tidy.
    exists (tags_xml path). eexists _, _. split; [reflexivity|].
    cbn [xml_files snapshots databases log]. split_and!; try done.
    right. by split.
  - erewrite bind_inl; [|by apply Posts_init_fails]. tidy.
    exists (posts_xml path). eexists _, _. split; [reflexivity|].
    cbn [xml_files snapshots databases log]. split_and!; try done. by left.
Qed.

Lemma main_unreadable_input_witness :
  ∃ w' : World,
    main run constrained "data" ex_files = (inl (XmlError "data/Posts.xml"), w') ∧
    snapshots w' = snapshots ex_files ∧ databases w' = databases ex_files.
Proof.
  destruct (main_unreadable_input run constrained "data" ex_files)
    as (url & w' & evs & Hmain & Hurl & _ & _ & Hs & Hd & _).
  { left. vm_compute. reflexivity. }
  exists w'. split; [|by split].
  destruct Hurl as [->|[_ [lp Hlp]]].
  - exact Hmain.
  - vm_compute in Hlp. discriminate Hlp.
Defined.

(** When both files are read but one of the columns the join names, [Id]
    or [Tags] of the posts, [Id] or [TagName] of the tags, is not to be
    found under that name once the first character of every column name
    is gone, the run ends with the analysis error right after the two
    reads: no snapshot is written, the store is not touched, no check is
    evaluated. *)
Theorem main_unresolvable_columns (verify : Check → DataFrame → list ReportRow)
    (refuses : SqlTable → DataFrame → option string)
    (path : string) (w : World) (loaded_posts loaded_tags : DataFrame) :
  xml_files w !! posts_xml path = Some loaded_posts →
  xml_files w !! tags_xml path = Some loaded_tags →
  PostsTags_df (strip_prefix loaded_posts) (strip_prefix loaded_tags) = None →
  (resolve (map Str.slice1 (columns loaded_posts)) "Id" = None ∨
   resolve (map Str.slice1 (columns loaded_posts)) "Tags" = None ∨
   resolve (map Str.slice1 (columns loaded_tags)) "Id" = None ∨
   resolve (map Str.slice1 (columns loaded_tags)) "TagName" = None) ∧
  ∃ what : string,
    main verify refuses path w =
    (inl (AnalysisException what),
     {| xml_files := xml_files w; snapshots := snapshots w; databases := databases w;
        log := log w ++ [ SparkSessionStarted "XML_Import";
                          XmlRead (posts_xml path) "posts" "row" "FAILFAST";
                          XmlRead (tags_xml path) "tags" "row" "FAILFAST" ] |}).
Proof.
  intros Hp Ht Hj. split.
  - unfold PostsTags_df, strip_prefix in Hj. cbn [columns rows] in Hj.
    destruct (resolve (map Str.slice1 (columns loaded_posts)) "Tags"); [|by auto].
    destruct (resolve (map Str.slice1 (columns loaded_tags)) "TagName"); [|by auto].
    destruct (resolve (map Str.slice1 (columns loaded_posts)) "Id"); [|by auto].
    destruct (resolve (map Str.slice1 (columns loaded_tags)) "Id"); [|by auto].
    discriminate Hj.
  - unfold main. step SparkClient_init_run.
    step Posts_init_run; [|exact Hp].
    step Tags_init_run; [|exact Ht].
    erewrite bind_inl; [|rewrite PostsTags_init_run, Hj; reflexivity].
    tidy. by eexists.
Qed.

Lemma main_unresolvable_columns_witness :
  columns (strip_prefix ex_loaded) = ["Id"; "agName"] ∧
  ∃ (what : string) (w' : World),
    main run constrained "data" ex_unmarked = (inl (AnalysisException what), w') ∧
    snapshots w' = ∅ ∧ databases w' = ∅.
Proof.
  split; [reflexivity|].
  destruct (main_unresolvable_columns run constrained "data" ex_unmarked ex_loaded ex_loaded)
    as [_ [what Hmain]]; [vm_compute; reflexivity..|].
  exists what. eexists. split; [exact Hmain|]. by split.
Defined.

(** [write_parquet] overwrites: of two writes under one name the second
    wins, as if the first had not been; a write under a name leaves the
    snapshot of any other name of the same client as it was; and it
    touches neither the input files nor the store. *)
Theorem write_parquet_overwrites (self : sparkclient.SparkClient) (df1 df2 : DataFrame)
    (name other : string) (w : World) :
  name ≠ other →
  let url := snapshot_url (sparkclient.path self) name in
  let w1 := (sparkclient.write_parquet self df1 name w).2 in
  let w2 := (sparkclient.write_parquet self df2 name w1).2 in
  (sparkclient.write_parquet self df2 name w1).1 = inr tt ∧
  snapshots w1 !! url = Some df1 ∧
  snapshots w2 !! url = Some df2 ∧
  snapshots w2 = snapshots (sparkclient.write_parquet self df2 name w).2 ∧
  snapshots w2 !! snapshot_url (sparkclient.path self) other =
    snapshots w !! snapshot_url (sparkclient.path self) other ∧
  databases w2 = databases w ∧
  xml_files w2 = xml_files w.
Proof.
  intros Hne url w1 w2. subst w1 w2.
  rewrite !write_parquet_run. cbn [fst snd]. norm.
  fold (snapshot_url (sparkclient.path self) name). fold url.
  split; [done|].
  split; [apply lookup_insert_eq|].
  split; [apply lookup_insert_eq|].
  split; [apply insert_insert_eq|].
  split; [|done].
  rewrite !lookup_insert_ne; [done|by apply snapshot_url_names..].
Qed.

Lemma write_parquet_overwrites_witness :
  snapshots ex_world !! "data/posts.parquet" = Some (mkDataFrame ["Id"] []) ∧
  snapshots (sparkclient.write_parquet (sparkclient.mkSparkClient "XML_Import" "data")
               ex_posts "posts" ex_world).2 !! "data/posts.parquet" = Some ex_posts ∧
  snapshots (sparkclient.write_parquet (sparkclient.mkSparkClient "XML_Import" "data")
               ex_tags "posts"
               (sparkclient.write_parquet (sparkclient.mkSparkClient "XML_Import" "data")
                  ex_posts "posts" ex_world).2).2 !! "data/posts.parquet" = Some ex_tags.
Proof.
  split; [vm_compute; reflexivity|].
  destruct (write_parquet_overwrites (sparkclient.mkSparkClient "XML_Import" "data")
              ex_posts ex_tags "posts" "tags" ex_world) as (_ & H1 & H2 & _).
  { apply (bool_decide_unpack _). vm_compute. exact I. }
  split; [exact H1 | exact H2].
Defined.

(** ** Further properties of the store *)

Lemma create_recreates (self : db.Database) (def : TableDef) (w : World) :
  ∃ w' : World,
    (db.execute self (DROP_TABLE_IF_EXISTS (table_name def));;
     db.execute self (CREATE_TABLE_IF_NOT_EXISTS def)) w = (inr tt, w') ∧
    db.tables_of (db.url self) w' =
      <[table_name def := {| declared := Some def; loaded := [] |}]>
        (db.tables_of (db.url self) w) ∧
    (∀ u : string, u ≠ db.url self → databases w' !! u = databases w !! u) ∧
    snapshots w' = snapshots w ∧
    xml_files w' = xml_files w ∧
    log w' = log w ++ [ SqlExecuted (DROP_TABLE_IF_EXISTS (table_name def));
                        SqlExecuted (CREATE_TABLE_IF_NOT_EXISTS def) ].
Proof.
  eexists. split; [apply create_run|].
  rewrite tables_of_insert. cbn [databases snapshots xml_files log].
  split_and!; try done.
  intros u Hu. by rewrite lookup_insert_ne.
Qed.

(** Each of [Posts.create], [Tags.create] and [PostsTags.create] leaves
    its table declared as the source declares it and empty, whatever the
    table held and whether or not it existed; it sends two statements,
    keeps every other table and every other database file, and doing it
    again changes nothing more. *)
Theorem create_resets_table (self : db.Database) (def : TableDef)
    (create : db.Database → M unit) (w : World) :
  (def, create) ∈ entity_creators →
  ∃ w' : World,
    create self w = (inr tt, w') ∧
    db.tables_of (db.url self) w' !! table_name def =
      Some {| declared := Some def; loaded := [] |} ∧
    (∀ t : string, t ≠ table_name def →
       db.tables_of (db.url self) w' !! t = db.tables_of (db.url self) w !! t) ∧
    (∀ u : string, u ≠ db.url self → databases w' !! u = databases w !! u) ∧
    snapshots w' = snapshots w ∧
    xml_files w' = xml_files w ∧
    statements_executed (drop (length (log w)) (log w')) =
      [DROP_TABLE_IF_EXISTS (table_name def); CREATE_TABLE_IF_NOT_EXISTS def] ∧
    (create self w').1 = inr tt ∧
    databases (create self w').2 = databases w'.
Proof.
  intros Hin.
  assert (Hcreate : create self =
    (db.execute self (DROP_TABLE_IF_EXISTS (table_name def));;
     db.execute self (CREATE_TABLE_IF_NOT_EXISTS def))).
  { unfold entity_creators in Hin.
    repeat (apply elem_of_cons in Hin as [[= -> ->]|Hin]; [reflexivity|]).
    by apply elem_of_nil in Hin. }
  rewrite Hcreate.
  destruct (create_recreates self def w) as (w' & Hrun & Htables & Hothers & Hs & Hx & Hlog).
  exists w'. split; [exact Hrun|].
  split; [rewrite Htables; apply lookup_insert_eq|].
  split; [intros t Ht; rewrite Htables; by apply lookup_insert_ne|].
  split; [exact Hothers|]. split; [exact Hs|]. split; [exact Hx|].
  split; [by rewrite Hlog, drop_app_length|].
  rewrite (create_run self def w'). cbn [fst snd databases]. split; [done|].
  rewrite Htables, insert_insert_eq.
  apply map_eq. intros u. destruct (decide (u = db.url self)) as [->|Hu].
  - rewrite lookup_insert_eq. rewrite create_run in Hrun. injection Hrun as <-.
    cbn [databases]. by rewrite lookup_insert_eq.
  - by rewrite lookup_insert_ne.
Qed.

Lemma create_resets_table_witness :
  warehouse "data" ex_world !! "posts" =
    Some (mkSqlTable (Some db.posts_def) [mkDataFrame ["Id"] [[VLong 7]]]) ∧
  ∃ w' : World,
    db.Posts_create (db.mkDatabase "data/warehouse.db") ex_world = (inr tt, w') ∧
    warehouse "data" w' !! "posts" = Some (mkSqlTable (Some db.posts_def) []).
Proof.
  split; [vm_compute; reflexivity|].
  destruct (create_resets_table (db.mkDatabase "data/warehouse.db") db.posts_def
              db.Posts_create ex_world) as (w' & Hrun & Htable & _).
  { apply elem_of_cons. by left. }
  exists w'. split; [exact Hrun | exact Htable].
Defined.

(** [to_sql] fails in two cases, and then changes no database: in the
    mode [fail] on a table that exists, with pandas' [ValueError]; in the
    mode [append] on a table that exists and refuses the frame, with the
    store's error, none of the rows of the frame being kept.  Otherwise it
    returns and the table exists with the frame as its last load: after
    the loads it had, under the schema it had, in the mode [append] on a
    table that exists; as its only load, under no declared schema, in
    every other case.  No other table and no other database file is
    touched. *)
Theorem to_sql_effect (refuses : SqlTable → DataFrame → option string)
    (self : db.Database) (df : DataFrame) (table : string)
    (if_exists : IfExists) (w : World) :
  (if_exists = if_exists_fail ∧ is_Some (db.tables_of (db.url self) w !! table) →
   ∃ what : string,
     (db.to_sql refuses self df table if_exists w).1 = inl (ValueError what) ∧
     databases (db.to_sql refuses self df table if_exists w).2 = databases w) ∧
  (∀ (t : SqlTable) (what : string),
     if_exists = if_exists_append →
     db.tables_of (db.url self) w !! table = Some t →
     refuses t df = Some what →
     (db.to_sql refuses self df table if_exists w).1 = inl (DatabaseError what) ∧
     databases (db.to_sql refuses self df table if_exists w).2 = databases w) ∧
  (¬ (if_exists = if_exists_fail ∧ is_Some (db.tables_of (db.url self) w !! table)) →
   (∀ t : SqlTable,
      if_exists = if_exists_append →
      db.tables_of (db.url self) w !! table = Some t → refuses t df = None) →
   (db.to_sql refuses self df table if_exists w).1 = inr tt ∧
   db.tables_of (db.url self) (db.to_sql refuses self df table if_exists w).2 !! table =
     Some (match if_exists, db.tables_of (db.url self) w !! table with
           | if_exists_append, Some t =>
               {| declared := declared t; loaded := loaded t ++ [df] |}
           | _, _ => {| declared := None; loaded := [df] |}
           end) ∧
   (∀ other : string, other ≠ table →
      db.tables_of (db.url self) (db.to_sql refuses self df table if_exists w).2 !! other =
      db.tables_of (db.url self) w !! other) ∧
   (∀ u : string, u ≠ db.url self →
      databases (db.to_sql refuses self df table if_exists w).2 !! u = databases w !! u)) ∧
  snapshots (db.to_sql refuses self df table if_exists w).2 = snapshots w ∧
  xml_files (db.to_sql refuses self df table if_exists w).2 = xml_files w.
Proof.
  rewrite to_sql_run. unfold store_frame.
  destruct (db.tables_of (db.url self) w !! table) as [t|] eqn:Ht.
  - destruct if_exists.
    + cbn [fst snd]. norm. split.
      { intros _. exists "Table already exists.". by split. }
      split; [intros t' what [=]|]. split; [|done].
      intros Hnot. destruct Hnot. split; [reflexivity | by exists t].
    + cbn [fst snd]. norm. rewrite tables_of_insert. split.
      { intros [[=] _]. }
      split; [intros t' what [=]|]. split; [|done].
      intros _ _. split; [reflexivity|]. split; [apply lookup_insert_eq|].
      split; intros k Hk; by rewrite lookup_insert_ne.
    + destruct (refuses t df) as [what|] eqn:Hr; cbn [fst snd]; norm;
        rewrite ?tables_of_insert.
      * split; [intros [[=] _]|]. split.
        { intros t' what' _ [= <-] Hr'. rewrite Hr in Hr'. by injection Hr' as <-. }
        split; [|done].
        intros _ Hok. specialize (Hok t eq_refl eq_refl). congruence.
      * split; [intros [[=] _]|]. split.
        { intros t' what' _ [= <-] Hr'. congruence. }
        split; [|done].
        intros _ _. split; [reflexivity|]. split; [apply lookup_insert_eq|].
        split; intros k Hk; by rewrite lookup_insert_ne.
  - cbn [fst snd]. norm. rewrite tables_of_insert.
    split; [intros [_ [t Ht']]; discriminate Ht'|].
    split; [intros t what _ [=]|]. split; [|done].
    intros _ _. split; [reflexivity|].
    split; [rewrite lookup_insert_eq; by destruct if_exists|].
    split; intros k Hk; by rewrite lookup_insert_ne.
Qed.




Lemma to_sql_effect_witness :
  (db.to_sql constrained (db.mkDatabase "data/warehouse.db") ex_posts "posts"
     if_exists_append ex_world).1 =
    inl (DatabaseError "NOT NULL constraint failed: posts.PostTypeId") ∧
  databases (db.to_sql constrained (db.mkDatabase "data/warehouse.db") ex_posts "posts"
               if_exists_append ex_world).2 = databases ex_world.
Proof.
  destruct (to_sql_effect constrained (db.mkDatabase "data/warehouse.db") ex_posts "posts"
              if_exists_append ex_world) as (_ & Hrefused & _).
  apply (Hrefused (mkSqlTable (Some db.posts_def) [mkDataFrame ["Id"] [[VLong 7]]])
           "NOT NULL constraint failed: posts.PostTypeId");
    [reflexivity | vm_compute; reflexivity | vm_compute; reflexivity].
Defined.

(** ** Further properties of the run *)

Lemma tables_of_run_after (path : string) (w w' : World) (posts tags posts_tags : DataFrame) :
  xml_files w' = xml_files w →
  tables_of_run path w posts tags posts_tags →
  tables_of_run path w' posts tags posts_tags.
Proof. unfold tables_of_run. by intros ->. Qed.

Lemma snapshots_idem (path : string) (posts tags posts_tags : DataFrame)
    (S : gmap string DataFrame) :
  let snaps := <[snapshot_url path "posts_tags" := posts_tags]>
                 (<[snapshot_url path "tags" := tags]>
                   (<[snapshot_url path "posts" := posts]> S)) in
  <[snapshot_url path "posts_tags" := posts_tags]>
    (<[snapshot_url path "tags" := tags]>
      (<[snapshot_url path "posts" := posts]> snaps)) = snaps.
Proof.
  intros snaps. subst snaps.
  rewrite (insert_id _ (snapshot_url path "posts")).
  2: { rewrite !lookup_insert_ne by (by apply snapshot_url_ne). apply lookup_insert_eq. }
  rewrite (insert_id _ (snapshot_url path "tags")).
  2: { rewrite lookup_insert_ne by (by apply snapshot_url_ne). apply lookup_insert_eq. }
  apply insert_insert_eq.
Qed.

Lemma committed_idem (st : gmap string SqlTable) (audit l1 l2 l3 : SqlTable) :
  let committed := <["posts_tags" := l3]> (<["tags" := l2]> (<["posts" := l1]>
                     (<["check_results" := audit]> st))) in
  <["posts_tags" := l3]> (<["tags" := l2]> (<["posts" := l1]>
    (<["check_results" := audit]> committed))) = committed.
Proof.
  intros committed. subst committed.
  rewrite (insert_id _ "check_results").
  2: { rewrite !lookup_insert_ne by done. apply lookup_insert_eq. }
  rewrite (insert_id _ "posts").
  2: { rewrite !lookup_insert_ne by done. apply lookup_insert_eq. }
  rewrite (insert_id _ "tags").
  2: { rewrite lookup_insert_ne by done. apply lookup_insert_eq. }
  apply insert_insert_eq.
Qed.

(** A run that has returned normally can be repeated: the second run
    returns normally as well and leaves the snapshots and the store
    exactly as the first left them.  In particular each of [posts],
    [tags] and [posts_tags] holds the one load of the last run, not one
    load per run, although the rows are appended. *)
Theorem main_rerun_idempotent (verify : Check → DataFrame → list ReportRow)
    (refuses : SqlTable → DataFrame → option string)
    (path : string) (w w1 : World) :
  main verify refuses path w = (inr tt, w1) →
  ∃ w2 : World,
    main verify refuses path w1 = (inr tt, w2) ∧
    xml_files w2 = xml_files w ∧
    snapshots w2 = snapshots w1 ∧
    databases w2 = databases w1 ∧
    (∀ t : string, t ∈ entity_tables →
       ∃ table : SqlTable,
         warehouse path w2 !! t = Some table ∧ length (loaded table) = 1%nat).
Proof.
  intros Hfirst.
  destruct (run_or_not path w) as [(posts & tags & posts_tags & Hrun)|Hno].
  2: { destruct (main_stops_early verify refuses path w Hno) as (e & evs & Hmain & _).
       rewrite Hmain in Hfirst. discriminate Hfirst. }
  destruct (main_outcome verify refuses path w posts tags posts_tags Hrun)
    as [[Hv Hmain]|[(Hv & Hnone & Hmain)|(Hv & k & what & Hsome & Hk & Hmain)]].
  { rewrite Hmain in Hfirst. discriminate Hfirst. }
  2: { rewrite Hmain in Hfirst. discriminate Hfirst. }
  rewrite Hmain in Hfirst. injection Hfirst as <-.
  match type of Hmain with _ = (_, ?w1) =>
    assert (Hrun1 : tables_of_run path w1 posts tags posts_tags)
      by (by apply (tables_of_run_after path w))
  end.
  destruct (main_outcome verify refuses path _ posts tags posts_tags Hrun1)
    as [[Hv1 _]|[(_ & _ & Hmain1)|(_ & k & what & Hsome & _)]].
  { destruct (verdicts_exclusive _ Hv1 Hv). }
  2: { rewrite Hnone in Hsome. discriminate Hsome. }
  rewrite warehouse_insert in Hmain1. cbn [xml_files snapshots databases log] in Hmain1.
  rewrite (snapshots_idem path posts tags posts_tags (snapshots w)) in Hmain1.
  rewrite (committed_idem (warehouse path w)) in Hmain1.
  rewrite insert_insert_eq in Hmain1.
  eexists. split; [exact Hmain1|].
  cbn [xml_files snapshots databases]. split_and!; try done.
  intros t Ht. rewrite warehouse_insert.
  unfold entity_tables in Ht.
  repeat (apply elem_of_cons in Ht as [->|Ht]).
  - eexists.
    split; [by repeat (rewrite lookup_insert_eq || rewrite lookup_insert_ne by done)|].
    reflexivity.
  - eexists.
    split; [by repeat (rewrite lookup_insert_eq || rewrite lookup_insert_ne by done)|].
    reflexivity.
  - eexists.
    split; [by repeat (rewrite lookup_insert_eq || rewrite lookup_insert_ne by done)|].
    reflexivity.
  - by apply elem_of_nil in Ht.
Qed.

Lemma main_rerun_idempotent_witness :
  ∃ w2 : World,
    main no_findings constrained "data" (main no_findings constrained "data" ex_full).2 =
      (inr tt, w2) ∧
    databases w2 = databases (main no_findings constrained "data" ex_full).2 ∧
    ∃ table : SqlTable,
      warehouse "data" w2 !! "posts" = Some table ∧ length (loaded table) = 1%nat.
Proof.
  destruct (main_rerun_idempotent no_findings constrained "data" ex_full
              (main no_findings constrained "data" ex_full).2)
    as (w2 & H2 & _ & _ & Hd & Hone).
  { vm_compute. reflexivity. }
  exists w2. split; [exact H2|]. split; [exact Hd|].
  apply Hone. apply elem_of_cons. by left.
Defined.

(** What a run leaves alone, however it ends: the input files; every
    database file but its own [warehouse.db]; in that file, every table
    but the audit table and the three entity tables; every snapshot but
    its own three.  And it only adds to the log. *)
Theorem main_frame (verify : Check → DataFrame → list ReportRow)
    (refuses : SqlTable → DataFrame → option string) (path : string) (w : World) :
  xml_files (main verify refuses path w).2 = xml_files w ∧
  (∀ u : string, u ≠ warehouse_url path →
     databases (main verify refuses path w).2 !! u = databases w !! u) ∧
  (∀ t : string, t ∉ "check_results" :: entity_tables →
     warehouse path (main verify refuses path w).2 !! t = warehouse path w !! t) ∧
  (∀ s : string, s ∉ snapshot_urls path →
     snapshots (main verify refuses path w).2 !! s = snapshots w !! s) ∧
  (∃ evs : list Event, log (main verify refuses path w).2 = log w ++ evs).
Proof.
  destruct (run_or_not path w) as [(p & t & pt & Hrun)|Hno].
  - assert (Hsnap : ∀ (s : string) (S : gmap string DataFrame),
      s ∉ snapshot_urls path →
      <[snapshot_url path "posts_tags" := pt]>
        (<[snapshot_url path "tags" := t]>
          (<[snapshot_url path "posts" := p]> S)) !! s = S !! s).
    { intros s S Hs. unfold snapshot_urls, entity_tables in Hs. cbn [map] in Hs.
      apply not_elem_of_cons in Hs as [H1 Hs].
      apply not_elem_of_cons in Hs as [H2 Hs].
      apply not_elem_of_cons in Hs as [H3 _].
      by rewrite !lookup_insert_ne. }
    assert (Htables : ∀ (t0 : string) (l1 l2 l3 audit : SqlTable) (st : gmap string SqlTable),
      t0 ∉ "check_results" :: entity_tables →
      <["posts_tags" := l3]> (<["tags" := l2]> (<["posts" := l1]>
        (<["check_results" := audit]> st))) !! t0 = st !! t0).
    { intros t0 l1 l2 l3 audit st Ht0. unfold entity_tables in Ht0.
      apply not_elem_of_cons in Ht0 as [H0 Ht0].
      apply not_elem_of_cons in Ht0 as [H1 Ht0].
      apply not_elem_of_cons in Ht0 as [H2 Ht0].
      apply not_elem_of_cons in Ht0 as [H3 _].
      by rewrite !lookup_insert_ne. }
    destruct (main_outcome verify refuses path w p t pt Hrun)
      as [[_ Hmain]|[(_ & _ & Hmain)|(_ & k & what & _ & _ & Hmain)]];
      rewrite Hmain; cbn [snd xml_files databases snapshots log];
      rewrite warehouse_insert.
    + split_and!; try done.
      * intros u Hu. by rewrite lookup_insert_ne.
      * intros t0 Ht0. apply not_elem_of_cons in Ht0 as [Hne _].
        by rewrite lookup_insert_ne.
      * intros s Hs. by apply Hsnap.
      * by eexists.
    + split_and!; try done.
      * intros u Hu. by rewrite lookup_insert_ne.
      * intros t0 Ht0. by apply Htables.
      * intros s Hs. by apply Hsnap.
      * by eexists.
    + split_and!; try done.
      * intros u Hu. by rewrite lookup_insert_ne.
      * intros t0 Ht0. by apply Htables.
      * intros s Hs. by apply Hsnap.
      * by eexists.
  - destruct (main_stops_early verify refuses path w Hno) as (e & evs & -> & _).
    cbn [snd xml_files databases snapshots log]. split_and!; try done. by exists evs.
Qed.

Lemma gate_fails_app (r1 r2 : list ReportRow) :
  gate_fails (r1 ++ r2) = gate_fails r1 || gate_fails r2.
Proof.
  apply eq_true_iff_eq. rewrite orb_true_iff, !gate_fails_true.
  unfold some_failed. apply Exists_app.
Qed.

(** The three reports are judged as one: the run is aborted exactly when
    the report of at least one of the three checks has a row whose status
    is not [Success]; it returns normally exactly when none has and the
    store takes the three loads; reports without rows never abort the
    run. *)
Theorem gate_verdict_per_table (verify : Check → DataFrame → list ReportRow)
    (refuses : SqlTable → DataFrame → option string)
    (path : string) (w : World) (posts tags posts_tags : DataFrame) :
  tables_of_run path w posts tags posts_tags →
  ((main verify refuses path w).1 = inl (SystemExit exit_message) ↔
   gate_fails (verify sparkclient.Posts_Check posts)
   || gate_fails (verify sparkclient.Tags_Check tags)
   || gate_fails (verify sparkclient.PostsTags_Check posts_tags) = true) ∧
  ((main verify refuses path w).1 = inr tt ↔
   gate_fails (verify sparkclient.Posts_Check posts)
   || gate_fails (verify sparkclient.Tags_Check tags)
   || gate_fails (verify sparkclient.PostsTags_Check posts_tags) = false ∧
   first_refused refuses (entity_loads posts tags posts_tags) = None) ∧
  (verify sparkclient.Posts_Check posts = [] →
   verify sparkclient.Tags_Check tags = [] →
   verify sparkclient.PostsTags_Check posts_tags = [] →
   (main verify refuses path w).1 ≠ inl (SystemExit exit_message)).
Proof.
  intros Hrun.
  rewrite <- !gate_fails_app.
  fold (aggregated_report verify posts tags posts_tags).
  assert (Hcases :
    ((main verify refuses path w).1 = inl (SystemExit exit_message) ↔
     gate_fails (aggregated_report verify posts tags posts_tags) = true) ∧
    ((main verify refuses path w).1 = inr tt ↔
     gate_fails (aggregated_report verify posts tags posts_tags) = false ∧
     first_refused refuses (entity_loads posts tags posts_tags) = None)).
  { destruct (main_outcome verify refuses path w posts tags posts_tags Hrun)
      as [[Hv Hmain]|[(Hv & Hnone & Hmain)|(Hv & k & what & Hsome & Hk & Hmain)]];
      rewrite Hmain; cbn [fst].
    - apply gate_fails_true in Hv. rewrite Hv. split; [by split|].
      split; [discriminate | by intros [? _]].
    - apply gate_fails_false in Hv. rewrite Hv, Hnone. split; [by split|].
      by split.
    - apply gate_fails_false in Hv. rewrite Hv, Hsome. split; [by split|].
      split; [discriminate | by intros [_ ?]]. }
  destruct Hcases as [Hfail Hpass]. split; [exact Hfail|]. split; [exact Hpass|].
  intros H1 H2 H3 Habort. apply Hfail in Habort.
  unfold aggregated_report in Habort. rewrite H1, H2, H3 in Habort. discriminate Habort.
Qed.

Lemma gate_verdict_per_table_witness :
  (main no_findings constrained "data" ex_full).1 = inr tt ∧
  (main no_findings constrained "data" ex_full).1 ≠ inl (SystemExit exit_message).
Proof.
  destruct (gate_verdict_per_table no_findings constrained "data" ex_full
              ex_full_posts ex_full_tags ex_posts_tags)
    as (_ & Hpass & Hempty).
  { exists ex_full_posts_xml, ex_full_tags_xml. vm_compute. repeat split. }
  split; [|by apply Hempty].
  apply Hpass. split; vm_compute; reflexivity.
Defined.

Lemma main_stops_early_events (verify : Check → DataFrame → list ReportRow)
    (refuses : SqlTable → DataFrame → option string) (path : string) (w : World) :
  (∀ posts tags posts_tags, ¬ tables_of_run path w posts tags posts_tags) →
  ∃ (e : Exn) (evs : list Event),
    main verify refuses path w =
      (inl e, {| xml_files := xml_files w; snapshots := snapshots w;
                 databases := databases w;
                 log := log w ++ SparkSessionStarted "XML_Import" :: evs |}) ∧
    e ≠ SystemExit exit_message ∧
    sessions_stopped evs = 0%nat.
Proof.
  intros Hno. unfold main. step SparkClient_init_run.
  destruct (xml_files w !! (path +:+ os_sep +:+ "Posts.xml")) as [lp|] eqn:Hp.
  2: { erewrite bind_inl; [|by apply Posts_init_fails]. tidy. by eexists _, _. }
  step Posts_init_run; [|exact Hp].
  destruct (xml_files w !! (path +:+ os_sep +:+ "Tags.xml")) as [lt|] eqn:Ht.
  2: { erewrite bind_inl; [|by apply Tags_init_fails]. tidy. by eexists _, _. }
  step Tags_init_run; [|exact Ht].
  destruct (PostsTags_df (strip_prefix lp) (strip_prefix lt)) as [pt|] eqn:Hj.
  { destruct (Hno (strip_prefix lp) (strip_prefix lt) pt). by exists lp, lt. }
  erewrite bind_inl; [|rewrite PostsTags_init_run, Hj; reflexivity].
  tidy. by eexists _, _.
Qed.

(** Every run starts the Spark session first.  A run that is aborted by
    the gate stops it, once, as its last action; a run that passes the
    gate and whose three loads the store takes stops it, once, after the
    last load and before the closing message.  No other run stops it: a
    run that passes the gate and meets a refusal of the store ends on the
    refused load, and a run that fails before the gate, on an unreadable
    file or an unresolvable column, ends with that error, the session
    left running in both cases. *)
Theorem session_lifecycle (verify : Check → DataFrame → list ReportRow)
    (refuses : SqlTable → DataFrame → option string) (path : string) (w : World) :
  ∃ evs : list Event,
    log (main verify refuses path w).2 = log w ++ evs ∧
    head evs = Some (SparkSessionStarted "XML_Import") ∧
    (∀ posts tags posts_tags : DataFrame,
       tables_of_run path w posts tags posts_tags →
       (some_failed (aggregated_report verify posts tags posts_tags) →
        sessions_stopped evs = 1%nat ∧
        last evs = Some SparkSessionStopped) ∧
       (all_succeeded (aggregated_report verify posts tags posts_tags) →
        first_refused refuses (entity_loads posts tags posts_tags) = None →
        sessions_stopped evs = 1%nat ∧
        ∃ before : list Event,
          evs = before ++ [SparkSessionStopped; Printed "Data Loaded Successfully!"] ∧
          tables_loaded before = "check_results" :: entity_tables) ∧
       (all_succeeded (aggregated_report verify posts tags posts_tags) →
        ∀ (k : nat) (what : string),
          first_refused refuses (entity_loads posts tags posts_tags) = Some (k, what) →
          sessions_stopped evs = 0%nat ∧
          (main verify refuses path w).1 = inl (DatabaseError what) ∧
          ∃ table : string,
            entity_tables !! k = Some table ∧
            last evs = Some (SqlLoaded table if_exists_append))) ∧
    ((∀ posts tags posts_tags, ¬ tables_of_run path w posts tags posts_tags) →
     sessions_stopped evs = 0%nat ∧
     ∃ e : Exn, (main verify refuses path w).1 = inl e ∧ e ≠ SystemExit exit_message).
Proof.
  destruct (run_or_not path w) as [(p & t & pt & Hrun)|Hno].
  - assert (Hsame : ∀ p' t' pt', tables_of_run path w p' t' pt' →
                    p' = p ∧ t' = t ∧ pt' = pt).
    { intros p' t' pt' Hrun'. exact (tables_of_run_unique path w p t pt p' t' pt' Hrun Hrun'). }
    destruct (main_outcome verify refuses path w p t pt Hrun)
      as [[Hv Hmain]|[(Hv & Hnone & Hmain)|(Hv & k & what & Hsome & Hk & Hmain)]];
      rewrite Hmain; cbn [fst snd log]; eexists; (split; [reflexivity|]);
      (split; [reflexivity|]); split.
    + intros p' t' pt' (-> & -> & ->)%Hsame. split; [by intros _|]. split.
      * intros Hs. destruct (verdicts_exclusive _ Hv Hs).
      * intros Hs. destruct (verdicts_exclusive _ Hv Hs).
    + intros Hno. destruct (Hno p t pt Hrun).
    + intros p' t' pt' (-> & -> & ->)%Hsame. split; [|split].
      * intros Hf. destruct (verdicts_exclusive _ Hf Hv).
      * intros _ _. split; [reflexivity|].
        exists (events_to_gate path ++ take 9 events_of_commit). split; reflexivity.
      * intros _ k what Hsome. rewrite Hnone in Hsome. discriminate Hsome.
    + intros Hno. destruct (Hno p t pt Hrun).
    + intros p' t' pt' (-> & -> & ->)%Hsame. split; [|split].
      * intros Hf. destruct (verdicts_exclusive _ Hf Hv).
      * intros _ Hnone. rewrite Hnone in Hsome. discriminate Hsome.
      * intros _ k' what' Hsome'. rewrite Hsome in Hsome'. injection Hsome' as <- <-.
        destruct Hk as [-> | [-> | ->]]; (split; [reflexivity|]); (split; [reflexivity|]);
          eexists; split; reflexivity.
    + intros Hno. destruct (Hno p t pt Hrun).
  - destruct (main_stops_early_events verify refuses path w Hno) as (e & evs & -> & He & Hevs).
    cbn [fst snd log]. eexists. split; [reflexivity|]. split; [reflexivity|]. split.
    + intros p t pt Hrun. destruct (Hno p t pt Hrun).
    + intros _. split; [exact Hevs|]. by exists e.
Qed.

Lemma session_lifecycle_witness :
  ∃ evs : list Event,
    log (main no_findings constrained "data" ex_partial).2 = log ex_partial ++ evs ∧
    sessions_stopped evs = 0%nat ∧
    last evs = Some (SqlLoaded "tags" if_exists_append).
Proof.
  destruct (session_lifecycle no_findings constrained "data" ex_partial)
    as (evs & Hlog & _ & Hrun & _).
  destruct (Hrun ex_full_posts ex_extra_tags ex_posts_tags) as (_ & _ & Hrefused).
  { exists ex_full_posts_xml, ex_extra_tags_xml. vm_compute. repeat split. }
  destruct (Hrefused
              ltac:(apply gate_fails_false; vm_compute; reflexivity)
              1%nat "table tags has no column named Synonyms"
              ltac:(vm_compute; reflexivity))
    as (Hnone & _ & table & Htable & Hlast).
  exists evs. split; [exact Hlog|]. split; [exact Hnone|].
  injection Htable as <-. exact Hlast.
Defined.
